(** * Kidder article processor: a shallow embedding of [scripts/process_articles.py]

    Python [str] values are modelled as Rocq [string]s (byte strings); the
    character classes of the regular expressions ([\d], [\w], [\s]) and the
    whitespace of [str.strip] are their ASCII members. Python dicts are
    insertion-ordered association lists ([pydict]); JSON values returned by
    [json.loads] are the inductive [json]. External collaborators (SHA-256,
    pandoc, python-docx, the OpenAI call with the parse of its reply, the
    clock) are fields of the record [Externals] or explicit arguments. *)

From Stdlib Require Import String Ascii List Bool Arith Lia ZArith NArith Sorting.Permutation Sorting.Sorted.
Import ListNotations.
Open Scope list_scope.
Open Scope string_scope.
Open Scope nat_scope.
#[local] Set Warnings "-register-all".

(** ** Exceptions: a small error monad *)

Inductive exc (A : Type) : Type :=
| Ret : A -> exc A
| Raise : string -> exc A.
Arguments Ret {A} _.
Arguments Raise {A} _.

Definition exc_bind {A B} (m : exc A) (k : A -> exc B) : exc B :=
  match m with Ret a => k a | Raise e => Raise e end.

Notation "x <- m ;; k" := (exc_bind m (fun x => k))
  (at level 61, m at next level, right associativity).

(** ** Python dicts: insertion-ordered association lists *)

Definition pydict (V : Type) := list (string * V).

(** [d.get(k)] *)
Fixpoint dict_get {V} (d : pydict V) (k : string) : option V :=
  match d with
  | [] => None
  | (k', v) :: d' => if String.eqb k' k then Some v else dict_get d' k
  end.

(** [d.get(k, default)] *)
Definition dict_get_default {V} (d : pydict V) (k : string) (dflt : V) : V :=
  match dict_get d k with Some v => v | None => dflt end.

(** [d[k] = v]: an existing key keeps its position, a new key goes last. *)
Fixpoint dict_set {V} (d : pydict V) (k : string) (v : V) : pydict V :=
  match d with
  | [] => [(k, v)]
  | (k', v') :: d' => if String.eqb k' k then (k, v) :: d' else (k', v') :: dict_set d' k v
  end.

(** [d.values()] *)
Definition dict_values {V} (d : pydict V) : list V := map snd d.

(** ** Characters and strings *)

Definition code (c : ascii) : nat := nat_of_ascii c.

(** [str.isspace] on ASCII: \t \n \v \f \r, \x1c-\x1f and space. *)
Definition is_space (c : ascii) : bool :=
  let n := code c in (9 <=? n) && (n <=? 13) || (28 <=? n) && (n <=? 32).

Definition is_digit (c : ascii) : bool := let n := code c in (48 <=? n) && (n <=? 57).
Definition digit_val (c : ascii) : nat := code c - 48.
Definition is_alpha (c : ascii) : bool :=
  let n := code c in (65 <=? n) && (n <=? 90) || (97 <=? n) && (n <=? 122).
(** regex [\w] *)
Definition is_word (c : ascii) : bool := is_alpha c || is_digit c || (code c =? 95).

(** [str.lower] on one character *)
Definition lower (c : ascii) : ascii :=
  let n := code c in if (65 <=? n) && (n <=? 90) then ascii_of_nat (n + 32) else c.

Fixpoint lstrip_l (l : list ascii) : list ascii :=
  match l with
  | c :: t => if is_space c then lstrip_l t else l
  | [] => []
  end.

(** [s.strip()] *)
Definition strip (s : string) : string :=
  string_of_list_ascii (rev (lstrip_l (rev (lstrip_l (list_ascii_of_string s))))).

(** [s.rfind(".")], [-1] as [None] *)
Fixpoint rfind_dot_aux (l : list ascii) (i : nat) (best : option nat) : option nat :=
  match l with
  | [] => best
  | c :: t => rfind_dot_aux t (S i) (if Ascii.eqb c "."%char then Some i else best)
  end.
Definition rfind_dot (s : string) : option nat := rfind_dot_aux (list_ascii_of_string s) 0 None.

(** [Path(name).stem] for a bare file name *)
Definition stem (name : string) : string :=
  match rfind_dot name with
  | Some i => if (0 <? i) && (i <? String.length name - 1) then substring 0 i name else name
  | None => name
  end.

(** Decimal rendering of a [nat] ([str(n)]). *)
Fixpoint digits_rev (fuel n : nat) : list ascii :=
  match fuel with
  | 0 => []
  | S fuel' =>
      let c := ascii_of_nat (48 + n mod 10) in
      if n <? 10 then [c] else c :: digits_rev fuel' (n / 10)
  end.
Definition str_of_nat (n : nat) : string := string_of_list_ascii (rev (digits_rev (S n) n)).

(** ** JSON values as returned by [json.loads] *)

Inductive json : Type :=
| JNull
| JBool (b : bool)
| JInt (z : Z)
| JStr (s : string)
| JList (l : list json)
| JObj (kvs : pydict json).

(** Python truthiness of a JSON value *)
Definition truthy (v : json) : bool :=
  match v with
  | JNull => false
  | JBool b => b
  | JInt z => negb (Z.eqb z 0)
  | JStr s => negb (String.eqb s "")
  | JList l => match l with [] => false | _ => true end
  | JObj kvs => match kvs with [] => false | _ => true end
  end.

Definition type_name (v : json) : string :=
  match v with
  | JNull => "NoneType" | JBool _ => "bool" | JInt _ => "int"
  | JStr _ => "str" | JList _ => "list" | JObj _ => "dict"
  end.

Definition no_attr (v : json) (attr : string) : string :=
  "'" ++ type_name v ++ "' object has no attribute '" ++ attr ++ "'".

(** [meta.get(k)] *)
Definition json_get (meta : json) (k : string) : exc json :=
  match meta with
  | JObj kvs => Ret (dict_get_default kvs k JNull)
  | _ => Raise (no_attr meta "get")
  end.

(** [(v or "").strip()] *)
Definition or_empty_strip (v : json) : exc string :=
  let w := if truthy v then v else JStr "" in
  match w with
  | JStr s => Ret (strip s)
  | _ => Raise (no_attr w "strip")
  end.

(** ** Articles and the output payload *)

(** An Article as the program writes it. A carried-forward entry whose
    [sourceFile], [date] or [title] is missing or [None] has [""] there:
    every use in the code ([if sf], [x.get("date") or ""], [==] against a
    file name) treats the two alike. *)
Record Article := mkArticle {
  sourceFile : string;
  title : string;
  date : string;
  dateISO : string;
  dateSource : string;
  summary : string;
  topics : list string;
  wordCount : nat;
  text : string;
  updatedAt : string
}.

Record Payload := mkPayload {
  generatedAt : string;
  articles : list Article;
  errors : list (string * string)   (* {"file": .., "error": ..} *)
}.

Record File := mkFile { fname : string; fbytes : string }.

(** ** [normalize_whitespace] and [word_count] *)

Definition CR : ascii := ascii_of_nat 13.
Definition LF : ascii := ascii_of_nat 10.
Definition TAB : ascii := ascii_of_nat 9.

(** [.replace("\r\n", "\n").replace("\r", "\n")] *)
Fixpoint replace_crlf (l : list ascii) : list ascii :=
  match l with
  | c :: ((d :: t) as t') =>
      if Ascii.eqb c CR && Ascii.eqb d LF then LF :: replace_crlf t else c :: replace_crlf t'
  | _ => l
  end.
Definition replace_cr (l : list ascii) : list ascii :=
  map (fun c => if Ascii.eqb c CR then LF else c) l.

(** [re.sub(r"[ \t]+", " ", s)] *)
Definition is_blank (c : ascii) : bool := Ascii.eqb c " "%char || Ascii.eqb c TAB.
Fixpoint collapse_blanks (l : list ascii) (in_run : bool) : list ascii :=
  match l with
  | [] => []
  | c :: t =>
      if is_blank c then (if in_run then collapse_blanks t true else " "%char :: collapse_blanks t true)
      else c :: collapse_blanks t false
  end.

(** [re.sub(r"\n{3,}", "\n\n", s)]: a maximal run of [k] newlines becomes
    [min k 2] newlines when [k >= 3] and stays as it is otherwise. *)
Definition newline_run (k : nat) : list ascii := repeat LF (if 3 <=? k then 2 else k).
Fixpoint collapse_newlines (l : list ascii) (k : nat) : list ascii :=
  match l with
  | [] => newline_run k
  | c :: t =>
      if Ascii.eqb c LF then collapse_newlines t (S k)
      else (newline_run k ++ c :: collapse_newlines t 0)%list
  end.

Definition normalize_whitespace (s : string) : string :=
  let l := replace_cr (replace_crlf (list_ascii_of_string s)) in
  let l := collapse_blanks l false in
  let l := collapse_newlines l 0 in
  strip (string_of_list_ascii l).

(** [len(re.findall(r"\b\w+\b", text))]: the maximal runs of [\w]. *)
Fixpoint word_runs (l : list ascii) (in_run : bool) : nat :=
  match l with
  | [] => 0
  | c :: t =>
      if is_word c then (if in_run then word_runs t true else S (word_runs t true))
      else word_runs t false
  end.
Definition word_count (s : string) : nat := word_runs (list_ascii_of_string s) false.

(** ** Regular-expression matching for the date heuristics

    A matcher takes a continuation and the remaining input; quantifiers try
    their greedy choice first and backtrack to the next one when the
    continuation fails, as Python's [re] does. *)

Definition is_sep (c : ascii) : bool := Ascii.eqb c "-"%char || Ascii.eqb c "_"%char.

(** [[-_]] *)
Definition sep_m {R} (k : list ascii -> option R) (s : list ascii) : option R :=
  match s with c :: t => if is_sep c then k t else None | [] => None end.

(** [(\d{1,2})], captured with [int(...)] *)
Definition d12 {R} (k : nat -> list ascii -> option R) (s : list ascii) : option R :=
  match s with
  | a :: t =>
      if is_digit a then
        match (match t with
               | b :: t' => if is_digit b then k (10 * digit_val a + digit_val b) t' else None
               | [] => None
               end) with
        | Some r => Some r
        | None => k (digit_val a) t
        end
      else None
  | [] => None
  end.

(** [(20\d{2})], captured with [int(...)] *)
Definition year20 {R} (k : nat -> list ascii -> option R) (s : list ascii) : option R :=
  match s with
  | c0 :: c1 :: a :: b :: t =>
      if Ascii.eqb c0 "2"%char && Ascii.eqb c1 "0"%char && is_digit a && is_digit b
      then k (2000 + 10 * digit_val a + digit_val b) t else None
  | _ => None
  end.

(** [re.search]: the leftmost position where the pattern matches. *)
Fixpoint search {R} (m : list ascii -> option R) (s : list ascii) : option R :=
  match m s with
  | Some r => Some r
  | None => match s with [] => None | _ :: t => search m t end
  end.

(** [(20\d{2})[-_](\d{1,2})[-_](\d{1,2})], as (year, month, day) *)
Definition iso_at (s : list ascii) : option (nat * nat * nat) :=
  year20 (fun y => sep_m (d12 (fun mo => sep_m (d12 (fun d _ => Some (y, mo, d)))))) s.

(** [(\d{1,2})[-_](\d{1,2})[-_](20\d{2})], as (year, month, day) *)
Definition us_at (s : list ascii) : option (nat * nat * nat) :=
  d12 (fun mo => sep_m (d12 (fun d => sep_m (year20 (fun y _ => Some (y, mo, d)))))) s.

(** ** [datetime(y, mo, d).strftime("%Y-%m-%d")] *)

Definition is_leap (y : nat) : bool :=
  (y mod 4 =? 0) && (negb (y mod 100 =? 0) || (y mod 400 =? 0)).

Definition days_in_month (y mo : nat) : nat :=
  match mo with
  | 1 | 3 | 5 | 7 | 8 | 10 | 12 => 31
  | 4 | 6 | 9 | 11 => 30
  | 2 => if is_leap y then 29 else 28
  | _ => 0
  end.

Definition pad (w n : nat) : string :=
  let s := str_of_nat n in
  string_of_list_ascii (repeat "0"%char (w - String.length s)) ++ s.

(** [None] where the constructor raises [ValueError]. *)
Definition py_date (y mo d : nat) : option string :=
  if (1 <=? y) && (y <=? 9999) && (1 <=? mo) && (mo <=? 12)
     && (1 <=? d) && (d <=? days_in_month y mo)
  then Some (pad 4 y ++ "-" ++ pad 2 mo ++ "-" ++ pad 2 d)
  else None.

Definition date_of (m : option (nat * nat * nat)) : option string :=
  match m with Some (y, mo, d) => py_date y mo d | None => None end.

Definition parse_date_from_filename (name : string) : option string :=
  let base := list_ascii_of_string (stem name) in
  match date_of (search iso_at base) with
  | Some r => Some r
  | None => date_of (search us_at base)
  end.

(** *** The long-form date of [parse_date_from_text] *)

(** A literal matched case-insensitively ([re.IGNORECASE]); returns the
    text it consumed and the rest. *)
Fixpoint lit_ci (w s acc : list ascii) : option (list ascii * list ascii) :=
  match w, s with
  | [], _ => Some (rev acc, s)
  | c :: w', d :: s' => if Ascii.eqb (lower c) (lower d) then lit_ci w' s' (d :: acc) else None
  | _ :: _, [] => None
  end.

(** An alternation [(w1|w2|...)], tried left to right. *)
Fixpoint alt_ci {R} (ws : list string) (k : list ascii -> list ascii -> option R)
    (s : list ascii) : option R :=
  match ws with
  | [] => None
  | w :: ws' =>
      match lit_ci (list_ascii_of_string w) s [] with
      | Some (m, rest) => match k m rest with Some r => Some r | None => alt_ci ws' k s end
      | None => alt_ci ws' k s
      end
  end.

Definition month_alts : list string :=
  ["Jan"; "January"; "Feb"; "February"; "Mar"; "March"; "Apr"; "April"; "May";
   "Jun"; "June"; "Jul"; "July"; "Aug"; "August"; "Sep"; "Sept"; "September";
   "Oct"; "October"; "Nov"; "November"; "Dec"; "December"].

(** [\.?] *)
Definition opt_dot {R} (k : list ascii -> option R) (s : list ascii) : option R :=
  match s with
  | c :: t => if Ascii.eqb c "."%char then match k t with Some r => Some r | None => k s end else k s
  | [] => k s
  end.

(** [\s+] *)
Fixpoint sp_plus {R} (k : list ascii -> option R) (s : list ascii) : option R :=
  match s with
  | c :: t => if is_space c then match sp_plus k t with Some r => Some r | None => k t end else None
  | [] => None
  end.

(** [(?:st|nd|rd|th)?] *)
Definition opt_suffix {R} (k : list ascii -> option R) (s : list ascii) : option R :=
  match alt_ci ["st"; "nd"; "rd"; "th"] (fun _ rest => k rest) s with
  | Some r => Some r
  | None => k s
  end.

(** [,] *)
Definition comma_m {R} (k : list ascii -> option R) (s : list ascii) : option R :=
  match s with c :: t => if Ascii.eqb c ","%char then k t else None | [] => None end.

Definition word_opt (c : option ascii) : bool :=
  match c with Some c => is_word c | None => false end.
Definition head_opt (s : list ascii) : option ascii :=
  match s with c :: _ => Some c | [] => None end.

(** [\b] between the previous character and the rest of the input *)
Definition boundary (prev : option ascii) (s : list ascii) : bool :=
  xorb (word_opt prev) (word_opt (head_opt s)).

(** [\b(Jan|...|December)\.?\s+(\d{1,2})(?:st|nd|rd|th)?,\s+(20\d{2})\b],
    as (month text, day, year) *)
Definition text_at (prev : option ascii) (s : list ascii) : option (list ascii * nat * nat) :=
  if boundary prev s then
    alt_ci month_alts
      (fun mon => opt_dot (sp_plus (d12 (fun day => opt_suffix (comma_m (sp_plus
         (year20 (fun year rest =>
            if boundary (Some "0"%char) rest then Some (mon, day, year) else None))))))))
      s
  else None.

(** [re.search] for a pattern that looks behind with [\b] *)
Fixpoint search_b {R} (m : option ascii -> list ascii -> option R) (prev : option ascii)
    (s : list ascii) : option R :=
  match m prev s with
  | Some r => Some r
  | None => match s with [] => None | c :: t => search_b m (Some c) t end
  end.

(** [str.splitlines()] on the ASCII line boundaries \n \r \r\n \v \f \x1c \x1d \x1e *)
Definition is_line_break (c : ascii) : bool :=
  let n := code c in (10 <=? n) && (n <=? 13) || (28 <=? n) && (n <=? 30).
Fixpoint splitlines_aux (l cur : list ascii) : list (list ascii) :=
  match l with
  | [] => match cur with [] => [] | _ => [rev cur] end
  | c :: t =>
      if is_line_break c then
        let t' := if Ascii.eqb c CR then match t with d :: t'' => if Ascii.eqb d LF then t'' else t | [] => t end else t in
        rev cur :: splitlines_aux t' []
      else splitlines_aux t (c :: cur)
  end.
Definition splitlines (s : string) : list (list ascii) := splitlines_aux (list_ascii_of_string s) [].

(** ["\n".join(lines)] *)
Fixpoint join_nl (ls : list (list ascii)) : list ascii :=
  match ls with
  | [] => []
  | [l] => l
  | l :: ls' => (l ++ LF :: join_nl ls')%list
  end.

Definition month_map : pydict nat :=
  [("jan", 1); ("feb", 2); ("mar", 3); ("apr", 4); ("may", 5); ("jun", 6);
   ("jul", 7); ("aug", 8); ("sep", 9); ("oct", 10); ("nov", 11); ("dec", 12)].

Definition parse_date_from_text (txt : string) : option string :=
  let head := join_nl (firstn 20 (splitlines txt)) in
  match search_b text_at None head with
  | Some (mon, day, year) =>
      match dict_get month_map (string_of_list_ascii (firstn 3 (map lower mon))) with
      | Some mo => py_date year mo day
      | None => None
      end
  | None => None
  end.

(** ** The inference response: [main], lines 257-279 *)

(** [[t.strip() for t in topics if isinstance(t, str) and t.strip()]] *)
Definition clean_topics (ts : list json) : list string :=
  flat_map (fun t => match t with
                     | JStr s => if String.eqb (strip s) "" then [] else [strip s]
                     | _ => []
                     end) ts.

(** [a or b] on two strings *)
Definition or_str (a b : string) : string := if String.eqb a "" then b else a.

(** [x or y] where [x] is a parser result ([None] or a string) *)
Definition or_opt (o : option string) (b : string) : string :=
  match o with Some d => or_str d b | None => b end.

(** The body of the [try] after [openai_infer] returned [meta]: it raises
    where Python raises ([.get] on a non-dict, [.strip] on a non-string). *)
Definition build_article (name txt : string) (wc : nat) (date_guess now : string) (meta : json)
    : exc Article :=
  t <- json_get meta "title" ;;
  t' <- or_empty_strip t ;;
  let ttl := or_str t' (stem name) in
  d <- json_get meta "date" ;;
  date_ai <- or_empty_strip d ;;
  s <- json_get meta "summary" ;;
  smry <- or_empty_strip s ;;
  tp <- json_get meta "topics" ;;
  let tps := match (if truthy tp then tp else JList []) with JList l => l | _ => [] end in
  let final_date := or_str date_guess (or_str date_ai "") in
  let date_source :=
    if negb (String.eqb date_guess "") then "filename/text"
    else if negb (String.eqb date_ai "") then "ai" else "" in
  Ret (mkArticle name ttl final_date final_date date_source smry (clean_topics tps) wc txt now).

(** ** One iteration of the main loop *)

Record Externals := mkExternals {
  sha256_file : string -> string;          (* hex digest of the file's bytes *)
  run_pandoc_extract : File -> string;
  docx_extract_fallback : File -> string;
  openai_infer : string -> exc json        (* the API call and [json.loads] of its reply *)
}.

Record Config := mkConfig { resume : bool; prune : bool }.

(** The calls to external tools, in order. *)
Inductive Call : Type :=
| CallPandoc (n : string)
| CallFallback (n : string)
| CallInfer (n : string).

(** The loop's mutable variables: [articles], [errors], [state["files"]],
    [processed], [updated], [missing_date_rows], and the call log. *)
Record Acc := mkAcc {
  acc_articles : list Article;
  acc_errors : list (string * string);
  acc_files : pydict string;
  acc_processed : nat;
  acc_updated : nat;
  acc_missing : list (string * string * nat);
  acc_calls : list Call
}.

(** Lines 281-292: replace the first Article with this [sourceFile], or append. *)
Fixpoint upsert (name : string) (art : Article) (l : list Article) : list Article :=
  match l with
  | [] => [art]
  | a :: t => if String.eqb (sourceFile a) name then art :: t else a :: upsert name art t
  end.

(** Line 244: [run_pandoc_extract(p) or docx_extract_fallback(p)], with the
    calls it makes. *)
Definition extract_text (ext : Externals) (f : File) : string * list Call :=
  let pd := run_pandoc_extract ext f in
  if String.eqb pd "" then (docx_extract_fallback ext f, [CallPandoc (fname f); CallFallback (fname f)])
  else (pd, [CallPandoc (fname f)]).

(** Line 254: [parse_date_from_filename(p.name) or parse_date_from_text(text) or ""] *)
Definition date_guess_of (name txt : string) : string :=
  or_opt (parse_date_from_filename name) (or_opt (parse_date_from_text txt) "").

Definition step (cfg : Config) (ext : Externals) (clock : nat -> string) (i : nat) (f : File)
    (acc : Acc) : Acc :=
  let name := fname f in
  let file_hash := sha256_file ext (fbytes f) in
  let prev_hash := dict_get_default (acc_files acc) name "" in
  if resume cfg && String.eqb prev_hash file_hash then acc
  else
    let '(raw, cs) := extract_text ext f in
    let txt := normalize_whitespace raw in
    let wc := word_count txt in
    let calls := (acc_calls acc ++ cs)%list in
    let files := dict_set (acc_files acc) name file_hash in
    if wc =? 0 then
      mkAcc (acc_articles acc) (acc_errors acc) files (acc_processed acc) (acc_updated acc)
            (acc_missing acc) calls
    else
      let date_guess := date_guess_of name txt in
      let calls := (calls ++ [CallInfer name])%list in
      match (meta <- openai_infer ext txt ;; build_article name txt wc date_guess (clock i) meta) with
      | Ret art =>
          mkAcc (upsert name art (acc_articles acc)) (acc_errors acc) files
                (S (acc_processed acc)) (S (acc_updated acc))
                (acc_missing acc ++ (if String.eqb (date art) "" then [(name, title art, wc)] else []))%list
                calls
      | Raise e =>
          mkAcc (acc_articles acc) (acc_errors acc ++ [(name, e)])%list files
                (acc_processed acc) (acc_updated acc) (acc_missing acc) calls
      end.

(** [for i, p in enumerate(docx_files, start=1)] *)
Fixpoint process_files (cfg : Config) (ext : Externals) (clock : nat -> string) (i : nat)
    (fs : list File) (acc : Acc) : Acc :=
  match fs with
  | [] => acc
  | f :: fs' => process_files cfg ext clock (S i) fs' (step cfg ext clock i f acc)
  end.

(** ** Prune, dedup, sort *)

(** Lines 201-212 *)
Definition prune_articles (names : list string) (arts : list Article) : list Article :=
  filter (fun a => negb (negb (String.eqb (sourceFile a) "")
                         && negb (existsb (String.eqb (sourceFile a)) names))) arts.

(** Lines 312-316 *)
Definition dedup_map (arts : list Article) : pydict Article :=
  fold_left (fun d a => if String.eqb (sourceFile a) "" then d else dict_set d (sourceFile a) a)
            arts [].
Definition dedup_articles (arts : list Article) : list Article := dict_values (dedup_map arts).

(** The sort key [(x.get("date") or "", x.get("title") or "")], compared as
    a tuple of strings. *)
Definition key_compare (a b : Article) : comparison :=
  match String.compare (date a) (date b) with
  | Eq => String.compare (title a) (title b)
  | c => c
  end.

(** [sorted(..., reverse=True)]: stable, descending. An element goes in
    front of the first element with a strictly smaller key. *)
Fixpoint insert_desc (a : Article) (l : list Article) : list Article :=
  match l with
  | [] => [a]
  | b :: t => match key_compare a b with Gt => a :: b :: t | _ => b :: insert_desc a t end
  end.
Definition sort_articles (arts : list Article) : list Article :=
  fold_left (fun acc a => insert_desc a acc) arts [].

(** ** A whole run of [main] *)

Record RunResult := mkRunResult {
  out : Payload;                                (* written to [--output] *)
  state_files : pydict string;                  (* [state["files"]], written to [--state] *)
  missing_rows : list (string * string * nat);  (* [missing_date_rows] *)
  n_processed : nat;
  n_updated : nat;
  call_log : list Call
}.

(** Lines 190-196: the collection carried forward from [--output]. *)
Definition carried_forward (cfg : Config) (existing : option Payload) : list Article :=
  if resume cfg then match existing with Some p => articles p | None => [] end else [].

(** Lines 201-212 *)
Definition pruned (cfg : Config) (folder : list File) (arts : list Article) : list Article :=
  if prune cfg then prune_articles (map fname folder) arts else arts.

(** [existing] is the parsed [--output] file when it exists; [state_files0]
    the parsed [--state] file's ["files"]; [folder] the sorted [*.docx] listing. *)
Definition run (cfg : Config) (ext : Externals) (clock : nat -> string) (folder : list File)
    (state_files0 : pydict string) (existing : option Payload) : RunResult :=
  let articles1 := pruned cfg folder (carried_forward cfg existing) in
  let acc := process_files cfg ext clock 1 folder (mkAcc articles1 [] state_files0 0 0 [] []) in
  let final := sort_articles (dedup_articles (acc_articles acc)) in
  mkRunResult (mkPayload (clock (S (length folder))) final (acc_errors acc))
              (acc_files acc) (acc_missing acc) (acc_processed acc) (acc_updated acc)
              (acc_calls acc).

(** The rows written to [--missing-csv] *)
Definition missing_csv (r : RunResult) : list (list string) :=
  ["sourceFile"; "title"; "wordCount"]
    :: map (fun '(n, t, w) => [n; t; str_of_nat w]) (missing_rows r).

Definition exit_code (r : RunResult) : nat := if 0 <? n_updated r then 10 else 0.

(** ** Vocabulary for the statements *)

(** [a] sorts no later than [b]: key of [a] >= key of [b]. *)
Definition key_ge (a b : Article) : Prop := key_compare a b <> Lt.

(** [b] has the same sort key as [a]. *)
Definition same_key (a b : Article) : bool :=
  match key_compare a b with Eq => true | _ => false end.

(** The missing-date row of an Article: [[p.name, title, wc]]. *)
Definition row_of (a : Article) : string * string * nat := (sourceFile a, title a, wordCount a).

(** The last Article of [l] with [sourceFile] [k], scanning in order. *)
Definition last_with (k : string) (l : list Article) : option Article :=
  fold_left (fun o a => if String.eqb (sourceFile a) k then Some a else o) l None.

(** ** Sample inputs *)

(** Fingerprints are tagged copies of the bytes, pandoc returns the bytes,
    and the inference call fails on the text ["boom text"]. *)
Definition sample_meta : json :=
  JObj [("title", JStr " Op-ed "); ("date", JStr ""); ("summary", JStr " S ");
        ("topics", JList [JStr " tax "; JStr " "; JInt 3])].

Definition sample_ext : Externals :=
  mkExternals (fun b => "sha256:" ++ b) fbytes (fun _ => "")
              (fun t => if String.eqb t "boom text" then Raise "APIError: timeout"
                        else Ret sample_meta).

Definition sample_clock (i : nat) : string := "2026-01-01T00:00:00".

Definition sample_folder : list File :=
  [mkFile "a.docx" "hello world"; mkFile "b.docx" "boom text"; mkFile "c.docx" ""].

Definition sample_run1 : RunResult :=
  run (mkConfig true false) sample_ext sample_clock sample_folder [] None.

(** The same command again, over the same folder. *)
Definition sample_run2 : RunResult :=
  run (mkConfig true false) sample_ext sample_clock sample_folder
      (state_files sample_run1) (Some (out sample_run1)).

(** A reply whose title is a JSON number. *)
Definition int_title_meta : json :=
  JObj [("title", JInt 42); ("date", JStr ""); ("summary", JStr ""); ("topics", JList [])].

Definition int_title_ext : Externals :=
  mkExternals (fun b => "sha256:" ++ b) fbytes (fun _ => "") (fun _ => Ret int_title_meta).

Definition int_title_run : RunResult :=
  run (mkConfig false false) int_title_ext sample_clock [mkFile "x.docx" "some words"] [] None.

(** An Article with only the fields the sort reads set. *)
Definition sample_article (sf t d : string) : Article := mkArticle sf t d d "" "" [] 0 "" "".

(** A file whose name and text carry different dates. *)
Definition dated_name : string := "2024-03-05 column.docx".
Definition dated_text : string := "Published June 1, 2023. The council met.".
Definition dated_meta : json :=
  JObj [("title", JStr "Column"); ("date", JStr "2022-01-01"); ("summary", JStr ""); ("topics", JNull)].
Definition dated_article : Article :=
  match build_article dated_name dated_text 6 (date_guess_of dated_name dated_text)
                      "2026-01-01T00:00:00" dated_meta with
  | Ret a => a
  | Raise _ => sample_article "" "" ""
  end.

(** ** Auxiliary views used by the additional properties *)

(** Model calls in a call log ([openai_infer]) and how many there are. *)
Definition is_infer (c : Call) : bool := match c with CallInfer _ => true | _ => false end.
Definition count_infer (cs : list Call) : nat := length (filter is_infer cs).

(** [c] is an external call made for the file named [n]. *)
Definition call_of (n : string) (c : Call) : Prop :=
  c = CallPandoc n \/ c = CallFallback n \/ c = CallInfer n.

(** The decimal digit character of [k < 10]. *)
Definition dchar (k : nat) : ascii := ascii_of_nat (48 + k).

(** Full English month names, as [parse_date_from_text] accepts them. *)
Definition month_names : list string :=
  ["January"; "February"; "March"; "April"; "May"; "June"; "July"; "August";
   "September"; "October"; "November"; "December"].

Definition month_name (mo : nat) : string := nth (mo - 1) month_names "".

(** A model reply whose title is blank. *)
Definition blank_title_meta : json :=
  JObj [("title", JStr "   "); ("date", JNull); ("summary", JNull); ("topics", JNull)].

(** The loop state of [main] before the first file. *)
Definition acc0 (cfg : Config) (folder : list File) (st : pydict string) (ex : option Payload) : Acc :=
  mkAcc (pruned cfg folder (carried_forward cfg ex)) [] st 0 0 [] [].

(** Every character is ASCII (code below 128): the inputs on which the
    regex classes [\w], [\d], [\s], [\b] and [str.strip] of Python coincide
    with the character classes above. *)
Definition is_ascii_str (s : string) : bool :=
  forallb (fun c => code c <? 128) (list_ascii_of_string s).

(** Lines 232-279: the [article] that the step for [f] builds (and then
    upserts at lines 281-292), if it gets that far: [None] when the file is
    skipped as unchanged, has no words, or its [try] block raises. *)
Definition step_article (cfg : Config) (ext : Externals) (clock : nat -> string) (i : nat)
    (f : File) (acc : Acc) : option Article :=
  let name := fname f in
  let file_hash := sha256_file ext (fbytes f) in
  let prev_hash := dict_get_default (acc_files acc) name "" in
  if resume cfg && String.eqb prev_hash file_hash then None
  else
    let '(raw, _) := extract_text ext f in
    let txt := normalize_whitespace raw in
    let wc := word_count txt in
    if wc =? 0 then None
    else
      let date_guess := date_guess_of name txt in
      match (meta <- openai_infer ext txt ;; build_article name txt wc date_guess (clock i) meta) with
      | Ret art => Some art
      | Raise _ => None
      end.

(** The Articles built by the loop of lines 231-310, in processing order. *)
Fixpoint processed_articles (cfg : Config) (ext : Externals) (clock : nat -> string) (i : nat)
    (fs : list File) (acc : Acc) : list Article :=
  match fs with
  | [] => []
  | f :: fs' =>
      match step_article cfg ext clock i f acc with Some a => [a] | None => [] end
      ++ processed_articles cfg ext clock (S i) fs' (step cfg ext clock i f acc)
  end.

(** The Articles built during one [run]. *)
Definition run_processed (cfg : Config) (ext : Externals) (clock : nat -> string)
    (folder : list File) (st : pydict string) (ex : option Payload) : list Article :=
  processed_articles cfg ext clock 1 folder (acc0 cfg folder st ex).

(** * Proofs *)

Open Scope list_scope.

(** ** The order of [String.compare] and of the sort key *)

Module KeyOrder.

Lemma ascii_compare_nat (a b : ascii) :
  Ascii.compare a b = Nat.compare (nat_of_ascii a) (nat_of_ascii b).
Proof. unfold Ascii.compare, nat_of_ascii. apply N2Nat.inj_compare. Qed.

Ltac ncmp H :=
  first [ apply Nat.compare_eq_iff in H | apply Nat.compare_lt_iff in H
        | apply Nat.compare_gt_iff in H ].

Lemma string_compare_trans (c : comparison) (x y z : string) :
  c <> Eq -> String.compare x y = c -> String.compare y z = c -> String.compare x z = c.
Proof.
  intro Hc. revert y z. induction x as [|a x IH]; intros [|b y] [|d z] Hxy Hyz; simpl in *;
    try congruence.
  rewrite !ascii_compare_nat in *.
  destruct (Nat.compare (nat_of_ascii a) (nat_of_ascii b)) eqn:E1;
  destruct (Nat.compare (nat_of_ascii b) (nat_of_ascii d)) eqn:E2;
  destruct (Nat.compare (nat_of_ascii a) (nat_of_ascii d)) eqn:E3;
  ncmp E1; ncmp E2; ncmp E3; try lia; try congruence; eauto.
Qed.

Lemma string_compare_refl (x : string) : String.compare x x = Eq.
Proof.
  induction x as [|a x IH]; simpl; [reflexivity|].
  rewrite ascii_compare_nat, Nat.compare_refl. exact IH.
Qed.

Lemma string_compare_empty_l (x : string) : String.compare "" x <> Lt -> x = "".
Proof. destruct x; simpl; congruence. Qed.

Lemma key_compare_antisym (a b : Article) : key_compare a b = CompOpp (key_compare b a).
Proof.
  unfold key_compare. rewrite (String.compare_antisym (date a)).
  destruct (String.compare (date b) (date a)); simpl; try reflexivity.
  apply String.compare_antisym.
Qed.

Lemma key_compare_refl (a : Article) : key_compare a a = Eq.
Proof. unfold key_compare. now rewrite !string_compare_refl. Qed.

Lemma key_compare_eq (a b : Article) :
  key_compare a b = Eq -> date a = date b /\ title a = title b.
Proof.
  unfold key_compare. destruct (String.compare (date a) (date b)) eqn:E; try discriminate.
  intro H. apply String.compare_eq_iff in E, H. auto.
Qed.

Lemma key_compare_eq_l (a b d : Article) :
  key_compare a b = Eq -> key_compare a d = key_compare b d.
Proof.
  intro H. apply key_compare_eq in H as [H1 H2]. unfold key_compare. now rewrite H1, H2.
Qed.

Lemma key_compare_eq_r (a b d : Article) :
  key_compare b d = Eq -> key_compare a b = key_compare a d.
Proof.
  intro H. apply key_compare_eq in H as [H1 H2]. unfold key_compare. now rewrite H1, H2.
Qed.

Lemma key_compare_trans (c : comparison) (a b d : Article) :
  c <> Eq -> key_compare a b = c -> key_compare b d = c -> key_compare a d = c.
Proof.
  intros Hc H1 H2. destruct c; [congruence| |]; unfold key_compare in *;
  destruct (String.compare (date a) (date b)) eqn:E1;
  destruct (String.compare (date b) (date d)) eqn:E2;
  try discriminate;
  try (apply String.compare_eq_iff in E1);
  try (apply String.compare_eq_iff in E2);
  first [ rewrite E1, E2, string_compare_refl;
          exact (string_compare_trans _ _ _ _ Hc H1 H2)
        | rewrite E1, E2; reflexivity
        | rewrite <- E2, E1; reflexivity
        | rewrite (string_compare_trans _ _ _ _ Hc E1 E2); reflexivity ].
Qed.

(** [a > b >= d] gives [a > d]. *)
Lemma key_gt_ge (a b d : Article) :
  key_compare a b = Gt -> key_compare b d <> Lt -> key_compare a d = Gt.
Proof.
  intros H1 H2. destruct (key_compare b d) eqn:E.
  - rewrite <- (key_compare_eq_r a b d E). exact H1.
  - congruence.
  - eapply key_compare_trans; eauto; discriminate.
Qed.

Lemma key_ge_trans (a b d : Article) :
  key_compare a b <> Lt -> key_compare b d <> Lt -> key_compare a d <> Lt.
Proof.
  intros H1 H2. destruct (key_compare a b) eqn:E.
  - rewrite (key_compare_eq_l a b d E). exact H2.
  - congruence.
  - rewrite (key_gt_ge a b d E H2). discriminate.
Qed.

End KeyOrder.

(** ** [sort_articles]: a stable descending sort *)

Module SortFacts.
Import KeyOrder.

Lemma insert_desc_perm (a : Article) (l : list Article) : Permutation (a :: l) (insert_desc a l).
Proof.
  induction l as [|b t IH]; simpl; [reflexivity|].
  destruct (key_compare a b); try reflexivity;
    (etransitivity; [apply perm_swap | apply perm_skip, IH]).
Qed.

Lemma insert_desc_sorted (a : Article) (l : list Article) :
  StronglySorted key_ge l -> StronglySorted key_ge (insert_desc a l).
Proof.
  induction l as [|b t IH]; intro Hs; simpl.
  - repeat constructor.
  - inversion Hs as [|? ? Ht Hb]; subst.
    destruct (key_compare a b) eqn:E.
    + constructor; [apply IH, Ht|].
      eapply Permutation_Forall; [apply insert_desc_perm|].
      constructor; [|exact Hb].
      unfold key_ge. rewrite key_compare_antisym, E. discriminate.
    + constructor; [apply IH, Ht|].
      eapply Permutation_Forall; [apply insert_desc_perm|].
      constructor; [|exact Hb].
      unfold key_ge. rewrite key_compare_antisym, E. discriminate.
    + constructor; [exact Hs|].
      constructor; [unfold key_ge; rewrite E; discriminate|].
      eapply Forall_impl; [|exact Hb]. intros y Hy.
      unfold key_ge. rewrite (key_gt_ge a b y E Hy). discriminate.
Qed.

Lemma fold_insert_perm (l acc : list Article) :
  Permutation (acc ++ l) (fold_left (fun acc a => insert_desc a acc) l acc).
Proof.
  revert acc. induction l as [|x l IH]; intro acc; simpl.
  - now rewrite app_nil_r.
  - rewrite <- IH.
    etransitivity; [apply Permutation_sym, Permutation_middle|].
    change (x :: acc ++ l) with ((x :: acc) ++ l).
    apply Permutation_app_tail, insert_desc_perm.
Qed.

Lemma sort_perm (l : list Article) : Permutation l (sort_articles l).
Proof. apply (fold_insert_perm l []). Qed.

Lemma sort_sorted (l : list Article) : StronglySorted key_ge (sort_articles l).
Proof.
  unfold sort_articles.
  assert (H : forall acc, StronglySorted key_ge acc ->
            StronglySorted key_ge (fold_left (fun acc a => insert_desc a acc) l acc)).
  { induction l as [|x l IH]; intros acc Hacc; simpl; [exact Hacc|].
    apply IH, insert_desc_sorted, Hacc. }
  apply H. constructor.
Qed.

Lemma sort_app (l : list Article) (x : Article) :
  sort_articles (l ++ [x]) = insert_desc x (sort_articles l).
Proof. unfold sort_articles. now rewrite fold_left_app. Qed.

Lemma StronglySorted_app_inv {A} (R : A -> A -> Prop) (l1 l2 : list A) :
  StronglySorted R (l1 ++ l2) ->
  StronglySorted R l1 /\ StronglySorted R l2 /\ (forall a b, In a l1 -> In b l2 -> R a b).
Proof.
  induction l1 as [|x l1 IH]; simpl; intro H.
  - repeat split; [constructor | exact H | contradiction].
  - inversion H as [|? ? H1 H2]; subst.
    destruct (IH H1) as (Ha & Hb & Hc).
    rewrite Forall_forall in H2.
    repeat split; [constructor; [exact Ha|] | exact Hb |].
    + apply Forall_forall. intros y Hy. apply H2, in_or_app. now left.
    + intros a b [<-|Ha'] Hb'; [apply H2, in_or_app; now right | now apply Hc].
Qed.

Lemma insert_desc_last (x : Article) (l : list Article) :
  (forall y, In y l -> key_compare x y <> Gt) -> insert_desc x l = l ++ [x].
Proof.
  induction l as [|b t IH]; intro H; simpl; [reflexivity|].
  destruct (key_compare x b) eqn:E.
  - f_equal. apply IH. intros y Hy. apply H. now right.
  - f_equal. apply IH. intros y Hy. apply H. now right.
  - exfalso. apply (H b); [now left | exact E].
Qed.

(** Sorting a sorted list changes nothing. *)
Lemma sort_sorted_id (l : list Article) : StronglySorted key_ge l -> sort_articles l = l.
Proof.
  induction l as [|x l IH] using rev_ind; intro Hs; [reflexivity|].
  destruct (StronglySorted_app_inv _ _ _ Hs) as (H1 & _ & H3).
  rewrite sort_app, IH by exact H1.
  apply insert_desc_last. intros y Hy.
  rewrite key_compare_antisym. specialize (H3 y x Hy (or_introl eq_refl)).
  unfold key_ge in H3. destruct (key_compare y x); simpl; congruence.
Qed.

Lemma sort_idem (l : list Article) : sort_articles (sort_articles l) = sort_articles l.
Proof. apply sort_sorted_id, sort_sorted. Qed.

Lemma filter_insert_other (p : Article -> bool) (x : Article) (l : list Article) :
  p x = false -> filter p (insert_desc x l) = filter p l.
Proof.
  intro Hx. induction l as [|b t IH]; simpl.
  - now rewrite Hx.
  - destruct (key_compare x b); simpl; rewrite ?Hx, ?IH; reflexivity.
Qed.

Lemma filter_all_false {A} (p : A -> bool) (l : list A) :
  (forall y, In y l -> p y = false) -> filter p l = [].
Proof.
  induction l as [|y l IH]; intro H; simpl; [reflexivity|].
  rewrite (H y (or_introl eq_refl)). apply IH. intros z Hz. apply H. now right.
Qed.

Lemma filter_insert_same (a x : Article) (l : list Article) :
  StronglySorted key_ge l -> same_key a x = true ->
  filter (same_key a) (insert_desc x l) = filter (same_key a) l ++ [x].
Proof.
  intros Hs Hx. unfold same_key in Hx.
  destruct (key_compare a x) eqn:Eax; try discriminate.
  induction l as [|b t IH]; simpl.
  - unfold same_key. now rewrite Eax.
  - inversion Hs as [|? ? Ht Hb]; subst.
    destruct (key_compare x b) eqn:E.
    + simpl. rewrite (IH Ht). now destruct (same_key a b).
    + simpl. rewrite (IH Ht). now destruct (same_key a b).
    + assert (Hnone : forall y, In y (b :: t) -> same_key a y = false).
      { intros y [<-|Hy]; unfold same_key; rewrite (key_compare_eq_l a x _ Eax).
        - now rewrite E.
        - rewrite Forall_forall in Hb. now rewrite (key_gt_ge x b y E (Hb y Hy)). }
      assert (Hsb : same_key a b = false) by (apply Hnone; now left).
      assert (Hft : filter (same_key a) t = [])
        by (apply filter_all_false; intros y Hy; apply Hnone; now right).
      try rewrite E. rewrite Hsb, Hft. simpl. rewrite Hsb, Hft.
      unfold same_key at 1. rewrite Eax. reflexivity.
Qed.

(** Elements with equal keys keep their relative order. *)
Lemma sort_stable (a : Article) (l : list Article) :
  filter (same_key a) (sort_articles l) = filter (same_key a) l.
Proof.
  induction l as [|x l IH] using rev_ind; [reflexivity|].
  rewrite sort_app, filter_app. simpl.
  destruct (same_key a x) eqn:Ex.
  - rewrite filter_insert_same by (apply sort_sorted || exact Ex). now rewrite IH.
  - rewrite filter_insert_other by exact Ex. now rewrite IH, app_nil_r.
Qed.

End SortFacts.

(** ** Python dicts *)

Module DictFacts.

Section Dict.
Context {V : Type}.

Lemma dict_get_set_eq (d : pydict V) (k : string) (v : V) : dict_get (dict_set d k v) k = Some v.
Proof.
  induction d as [|[k' v'] d IH]; simpl.
  - now rewrite String.eqb_refl.
  - destruct (String.eqb k' k) eqn:E; simpl.
    + now rewrite String.eqb_refl.
    + now rewrite E.
Qed.

Lemma dict_get_set_neq (d : pydict V) (k k' : string) (v : V) :
  k <> k' -> dict_get (dict_set d k v) k' = dict_get d k'.
Proof.
  intro Hne. induction d as [|[k0 v0] d IH]; simpl.
  - apply String.eqb_neq in Hne. now rewrite Hne.
  - destruct (String.eqb k0 k) eqn:E; simpl.
    + apply String.eqb_eq in E. subst k0.
      apply String.eqb_neq in Hne. now rewrite Hne.
    + now rewrite IH.
Qed.

Lemma dict_set_in (d : pydict V) (k k' : string) (v v' : V) :
  In (k', v') (dict_set d k v) -> (k', v') = (k, v) \/ In (k', v') d.
Proof.
  induction d as [|[k0 v0] d IH]; simpl.
  - intros [H|[]]. now left.
  - destruct (String.eqb k0 k); simpl; intros [H|H]; auto.
    destruct (IH H); auto.
Qed.

Lemma dict_set_keys (d : pydict V) (k : string) (v : V) :
  map fst (dict_set d k v) = if existsb (String.eqb k) (map fst d) then map fst d
                             else map fst d ++ [k].
Proof.
  induction d as [|[k0 v0] d IH]; simpl; [reflexivity|].
  rewrite (String.eqb_sym k k0).
  destruct (String.eqb k0 k) eqn:E; simpl.
  - apply String.eqb_eq in E. now subst.
  - rewrite IH. now destruct (existsb (String.eqb k) (map fst d)).
Qed.

Lemma dict_set_nodup (d : pydict V) (k : string) (v : V) :
  NoDup (map fst d) -> NoDup (map fst (dict_set d k v)).
Proof.
  intro H. rewrite dict_set_keys.
  destruct (existsb (String.eqb k) (map fst d)) eqn:E; [exact H|].
  apply NoDup_app; [exact H | repeat constructor; simpl; tauto |].
  intros x Hx [->|[]].
  assert (existsb (String.eqb x) (map fst d) = true)
    by (apply existsb_exists; exists x; split; [exact Hx | apply String.eqb_refl]).
  congruence.
Qed.

Lemma dict_get_in (d : pydict V) (k : string) (v : V) : dict_get d k = Some v -> In (k, v) d.
Proof.
  induction d as [|[k0 v0] d IH]; simpl; [discriminate|].
  destruct (String.eqb k0 k) eqn:E.
  - apply String.eqb_eq in E. intro H. injection H as <-. subst. now left.
  - intro H. right. now apply IH.
Qed.

Lemma in_dict_get (d : pydict V) (k : string) (v : V) :
  NoDup (map fst d) -> In (k, v) d -> dict_get d k = Some v.
Proof.
  induction d as [|[k0 v0] d IH]; simpl; [contradiction|].
  intros Hnd [H|H]; inversion Hnd as [|? ? Hk Hnd']; subst.
  - injection H as -> ->. now rewrite String.eqb_refl.
  - destruct (String.eqb k0 k) eqn:E.
    + apply String.eqb_eq in E. subst. exfalso. apply Hk.
      apply (in_map fst) in H. exact H.
    + now apply IH.
Qed.

Lemma dict_set_fresh (d : pydict V) (k : string) (v : V) :
  dict_get d k = None -> dict_set d k v = d ++ [(k, v)].
Proof.
  induction d as [|[k0 v0] d IH]; simpl; [reflexivity|].
  destruct (String.eqb k0 k); [discriminate|].
  intro H. now rewrite IH.
Qed.

End Dict.

End DictFacts.

(** ** Dedup *)

Module DedupFacts.
Import DictFacts.

Definition dedup_step (d : pydict Article) (a : Article) : pydict Article :=
  if String.eqb (sourceFile a) "" then d else dict_set d (sourceFile a) a.

Lemma dedup_map_app (l : list Article) (x : Article) :
  dedup_map (l ++ [x]) = dedup_step (dedup_map l) x.
Proof. unfold dedup_map. now rewrite fold_left_app. Qed.

(** Every entry of the dedup map is keyed by its own [sourceFile], which is
    not empty, and comes from the input. *)
Lemma dedup_map_entries (l : list Article) :
  NoDup (map fst (dedup_map l)) /\
  forall k a, In (k, a) (dedup_map l) -> sourceFile a = k /\ k <> "" /\ In a l.
Proof.
  induction l as [|x l IH] using rev_ind.
  - split; [constructor | simpl; contradiction].
  - destruct IH as [Hnd Hin]. rewrite dedup_map_app. unfold dedup_step.
    destruct (String.eqb (sourceFile x) "") eqn:E.
    + split; [exact Hnd|]. intros k a H. destruct (Hin k a H) as (H1 & H2 & H3).
      repeat split; auto. apply in_or_app. now left.
    + split; [now apply dict_set_nodup|].
      intros k a H. apply dict_set_in in H as [H|H].
      * injection H as -> ->. apply String.eqb_neq in E.
        repeat split; auto. apply in_or_app. right. now left.
      * destruct (Hin k a H) as (H1 & H2 & H3). repeat split; auto.
        apply in_or_app. now left.
Qed.

Lemma dedup_keys (l : list Article) :
  map sourceFile (dedup_articles l) = map fst (dedup_map l).
Proof.
  unfold dedup_articles, dict_values. rewrite map_map.
  apply map_ext_in. intros [k a] H. simpl.
  apply (proj2 (dedup_map_entries l)) in H. tauto.
Qed.

Lemma dedup_nodup (l : list Article) : NoDup (map sourceFile (dedup_articles l)).
Proof. rewrite dedup_keys. apply dedup_map_entries. Qed.

Lemma dedup_in (l : list Article) (a : Article) :
  In a (dedup_articles l) -> sourceFile a <> "" /\ In a l.
Proof.
  unfold dedup_articles, dict_values. intro H. apply in_map_iff in H as ([k a'] & <- & H).
  apply (proj2 (dedup_map_entries l)) in H. simpl. destruct H as (<- & H2 & H3). auto.
Qed.

Lemma last_with_app (k : string) (l : list Article) (x : Article) :
  last_with k (l ++ [x]) = if String.eqb (sourceFile x) k then Some x else last_with k l.
Proof. unfold last_with. now rewrite fold_left_app. Qed.

Lemma dedup_get (l : list Article) (k : string) :
  k <> "" -> dict_get (dedup_map l) k = last_with k l.
Proof.
  intro Hk. induction l as [|x l IH] using rev_ind; [reflexivity|].
  rewrite dedup_map_app, last_with_app. unfold dedup_step.
  destruct (String.eqb (sourceFile x) "") eqn:E.
  - apply String.eqb_eq in E. rewrite E.
    assert (Hk' : String.eqb "" k = false) by (apply String.eqb_neq; congruence).
    now rewrite Hk'.
  - destruct (String.eqb (sourceFile x) k) eqn:E2.
    + apply String.eqb_eq in E2. rewrite E2. apply dict_get_set_eq.
    + apply String.eqb_neq in E2. rewrite dict_get_set_neq by exact E2. exact IH.
Qed.

Lemma last_with_spec (k : string) (l : list Article) (a : Article) :
  last_with k l = Some a ->
  sourceFile a = k /\
  exists pre post, l = pre ++ a :: post /\ forall b, In b post -> sourceFile b <> k.
Proof.
  induction l as [|x l IH] using rev_ind; [discriminate|].
  rewrite last_with_app. destruct (String.eqb (sourceFile x) k) eqn:E.
  - intro H. injection H as <-. apply String.eqb_eq in E. split; [exact E|].
    exists l, []. split; [reflexivity | simpl; tauto].
  - intro H. destruct (IH H) as (Hk & pre & post & -> & Hpost). split; [exact Hk|].
    exists pre, (post ++ [x]). split; [now rewrite <- app_assoc|].
    intros b Hb. apply in_app_or in Hb as [Hb|[<-|[]]]; [now apply Hpost|].
    now apply String.eqb_neq.
Qed.

(** Last write wins: a kept Article is the last one with its [sourceFile]. *)
Lemma dedup_last (l : list Article) (a : Article) :
  In a (dedup_articles l) ->
  exists pre post, l = pre ++ a :: post /\ forall b, In b post -> sourceFile b <> sourceFile a.
Proof.
  unfold dedup_articles, dict_values. intro H. apply in_map_iff in H as ([k a'] & Heq & H).
  simpl in Heq. subst a'.
  destruct (proj2 (dedup_map_entries l) k a H) as (Hsf & Hk & _).
  apply in_dict_get in H; [|apply dedup_map_entries].
  rewrite dedup_get in H by exact Hk.
  destruct (last_with_spec k l a H) as (_ & pre & post & Hl & Hp).
  exists pre, post. split; [exact Hl|]. rewrite Hsf. exact Hp.
Qed.

Lemma dict_get_snoc {V} (d : pydict V) (k k' : string) (v : V) :
  k <> k' -> dict_get (d ++ [(k, v)]) k' = dict_get d k'.
Proof.
  intro Hne. induction d as [|[k0 v0] d IH]; simpl.
  - apply String.eqb_neq in Hne. now rewrite Hne.
  - destruct (String.eqb k0 k'); [reflexivity | exact IH].
Qed.

(** Dedup of a list with distinct, non-empty keys changes nothing. *)
Lemma dedup_id (l : list Article) :
  NoDup (map sourceFile l) -> (forall a, In a l -> sourceFile a <> "") -> dedup_articles l = l.
Proof.
  intros Hnd Hne. unfold dedup_articles, dedup_map, dict_values.
  assert (H : forall d, (forall a, In a l -> dict_get d (sourceFile a) = None) ->
            fold_left (fun d a => if String.eqb (sourceFile a) "" then d
                                  else dict_set d (sourceFile a) a) l d
            = d ++ map (fun a => (sourceFile a, a)) l).
  { induction l as [|x l IH]; intros d Hd; simpl; [now rewrite app_nil_r|].
    inversion Hnd as [|? ? Hx Hnd']; subst.
    assert (Ex : String.eqb (sourceFile x) "" = false)
      by (apply String.eqb_neq, Hne; now left).
    rewrite Ex, dict_set_fresh by (apply Hd; now left).
    rewrite IH; [now rewrite <- app_assoc | exact Hnd' | intros a Ha; apply Hne; now right |].
    intros a Ha. rewrite dict_get_snoc.
    - apply Hd. now right.
    - intro E. apply Hx. rewrite E. now apply in_map. }
  rewrite H by (intros; reflexivity). simpl. rewrite map_map. apply map_id.
Qed.

End DedupFacts.

(** ** Invariants of the main loop *)

Module RunFacts.
Import KeyOrder SortFacts DictFacts DedupFacts.

Lemma build_article_fields (name txt : string) (wc : nat) (dg now : string) (meta : json)
    (art : Article) :
  build_article name txt wc dg now meta = Ret art ->
  sourceFile art = name /\ wordCount art = wc.
Proof.
  unfold build_article, exc_bind.
  destruct (json_get meta "title") as [t|]; [|discriminate].
  destruct (or_empty_strip t) as [t'|]; [|discriminate].
  destruct (json_get meta "date") as [d|]; [|discriminate].
  destruct (or_empty_strip d) as [d'|]; [|discriminate].
  destruct (json_get meta "summary") as [sm|]; [|discriminate].
  destruct (or_empty_strip sm) as [sm'|]; [|discriminate].
  destruct (json_get meta "topics") as [tp|]; [|discriminate].
  intro H. injection H as <-. simpl. auto.
Qed.

Lemma step_files (cfg : Config) (ext : Externals) (clock : nat -> string) (i : nat) (f : File)
    (acc : Acc) :
  (step cfg ext clock i f acc = acc /\
   dict_get_default (acc_files acc) (fname f) "" = sha256_file ext (fbytes f))
  \/ acc_files (step cfg ext clock i f acc)
     = dict_set (acc_files acc) (fname f) (sha256_file ext (fbytes f)).
Proof.
  unfold step.
  destruct (resume cfg && String.eqb (dict_get_default (acc_files acc) (fname f) "")
                                     (sha256_file ext (fbytes f))) eqn:Hs.
  - left. split; [reflexivity|]. apply andb_prop in Hs as [_ Hs].
    now apply String.eqb_eq.
  - right. destruct (extract_text ext f) as [raw cs].
    destruct (word_count (normalize_whitespace raw) =? 0); [reflexivity|].
    destruct (exc_bind _ _); reflexivity.
Qed.

Lemma step_fingerprint_self cfg ext clock i f acc :
  dict_get_default (acc_files (step cfg ext clock i f acc)) (fname f) ""
  = sha256_file ext (fbytes f).
Proof.
  destruct (step_files cfg ext clock i f acc) as [[-> H] | ->]; [exact H|].
  unfold dict_get_default. now rewrite dict_get_set_eq.
Qed.

Lemma step_fingerprint_other cfg ext clock i f acc (n : string) :
  fname f <> n ->
  dict_get (acc_files (step cfg ext clock i f acc)) n = dict_get (acc_files acc) n.
Proof.
  intro Hne. destruct (step_files cfg ext clock i f acc) as [[-> _] | ->]; [reflexivity|].
  now apply dict_get_set_neq.
Qed.

Lemma process_fingerprint_other cfg ext clock (fs : list File) : forall i acc n,
  ~ In n (map fname fs) ->
  dict_get (acc_files (process_files cfg ext clock i fs acc)) n = dict_get (acc_files acc) n.
Proof.
  induction fs as [|f fs IH]; intros i acc n Hn; simpl; [reflexivity|].
  rewrite IH by (intro; apply Hn; now right).
  apply step_fingerprint_other. intro E. apply Hn. now left.
Qed.

(** After the loop every listed file's fingerprint is recorded. *)
Lemma process_fingerprints cfg ext clock (fs : list File) : forall i acc,
  NoDup (map fname fs) ->
  forall f, In f fs ->
  dict_get_default (acc_files (process_files cfg ext clock i fs acc)) (fname f) ""
  = sha256_file ext (fbytes f).
Proof.
  induction fs as [|g fs IH]; intros i acc Hnd f Hf; [destruct Hf|].
  simpl in Hnd. inversion Hnd as [|? ? Hg Hnd']; subst. simpl.
  destruct Hf as [<-|Hf].
  - unfold dict_get_default at 1. rewrite process_fingerprint_other by exact Hg.
    apply step_fingerprint_self.
  - now apply IH.
Qed.

(** A resumed loop over files whose fingerprints all match changes nothing. *)
Lemma process_skip_all cfg ext clock (fs : list File) : forall i acc,
  resume cfg = true ->
  (forall f, In f fs -> dict_get_default (acc_files acc) (fname f) "" = sha256_file ext (fbytes f)) ->
  process_files cfg ext clock i fs acc = acc.
Proof.
  induction fs as [|f fs IH]; intros i acc Hr Hfp; simpl; [reflexivity|].
  assert (Hstep : step cfg ext clock i f acc = acc).
  { unfold step. rewrite Hr, (Hfp f (or_introl eq_refl)), String.eqb_refl. reflexivity. }
  rewrite Hstep. apply IH; [exact Hr|]. intros g Hg. apply Hfp. now right.
Qed.

Lemma upsert_in (n : string) (art a : Article) (l : list Article) :
  In a (upsert n art l) -> a = art \/ In a l.
Proof.
  induction l as [|b t IH]; simpl.
  - intros [H|[]]. now left.
  - destruct (String.eqb (sourceFile b) n); simpl; intros [H|H]; auto.
    destruct (IH H); auto.
Qed.

Lemma step_articles (P : string -> Prop) cfg ext clock i f acc :
  (forall a, In a (acc_articles acc) -> P (sourceFile a)) -> P (fname f) ->
  forall a, In a (acc_articles (step cfg ext clock i f acc)) -> P (sourceFile a).
Proof.
  intros Hacc Hf. unfold step.
  destruct (resume cfg && _); [exact Hacc|].
  destruct (extract_text ext f) as [raw cs].
  destruct (word_count (normalize_whitespace raw) =? 0); [exact Hacc|].
  destruct (exc_bind _ _) as [art|e] eqn:Hb; simpl; [|exact Hacc].
  intros a Ha. apply upsert_in in Ha as [->|Ha]; [|now apply Hacc].
  destruct (openai_infer ext (normalize_whitespace raw)) as [meta|]; [|discriminate].
  simpl in Hb. apply build_article_fields in Hb as [-> _]. exact Hf.
Qed.

Lemma process_articles (P : string -> Prop) cfg ext clock (fs : list File) : forall i acc,
  (forall a, In a (acc_articles acc) -> P (sourceFile a)) -> (forall f, In f fs -> P (fname f)) ->
  forall a, In a (acc_articles (process_files cfg ext clock i fs acc)) -> P (sourceFile a).
Proof.
  induction fs as [|f fs IH]; intros i acc Hacc Hfs; simpl; [exact Hacc|].
  apply IH; [|intros g Hg; apply Hfs; now right].
  apply step_articles; [exact Hacc | apply Hfs; now left].
Qed.

Lemma prune_in (names : list string) (arts : list Article) (a : Article) :
  In a (prune_articles names arts) -> sourceFile a = "" \/ In (sourceFile a) names.
Proof.
  unfold prune_articles. rewrite filter_In. intros [_ H].
  destruct (String.eqb (sourceFile a) "") eqn:E; [left; now apply String.eqb_eq|].
  destruct (existsb (String.eqb (sourceFile a)) names) eqn:E2; [|discriminate].
  right. apply existsb_exists in E2 as (x & Hx & Ex). apply String.eqb_eq in Ex. now subst.
Qed.

Lemma prune_keeps (names : list string) (arts : list Article) (a : Article) :
  In a arts -> In (sourceFile a) names -> In a (prune_articles names arts).
Proof.
  intros Ha Hn. unfold prune_articles. apply filter_In. split; [exact Ha|].
  assert (E : existsb (String.eqb (sourceFile a)) names = true)
    by (apply existsb_exists; exists (sourceFile a); split; [exact Hn | apply String.eqb_refl]).
  rewrite E. now rewrite andb_false_r.
Qed.

Lemma prune_id (names : list string) (arts : list Article) :
  (forall a, In a arts -> In (sourceFile a) names) -> prune_articles names arts = arts.
Proof.
  intro H. unfold prune_articles. induction arts as [|a arts IH]; simpl; [reflexivity|].
  assert (E : existsb (String.eqb (sourceFile a)) names = true)
    by (apply existsb_exists; exists (sourceFile a);
        split; [apply H; now left | apply String.eqb_refl]).
  rewrite E, andb_false_r. simpl. f_equal. apply IH. intros b Hb. apply H. now right.
Qed.

End RunFacts.

(** ** Properties of a whole run *)

Module RunProps.
Import KeyOrder SortFacts DictFacts DedupFacts RunFacts.

Lemma run_articles_def cfg ext clock folder st ex :
  articles (out (run cfg ext clock folder st ex))
  = sort_articles (dedup_articles (acc_articles (process_files cfg ext clock 1 folder
      (mkAcc (pruned cfg folder (carried_forward cfg ex)) [] st 0 0 [] [])))).
Proof. reflexivity. Qed.

Lemma sort_in (l : list Article) (a : Article) : In a (sort_articles l) -> In a l.
Proof. intro H. eapply Permutation_in; [apply Permutation_sym, sort_perm | exact H]. Qed.

Lemma run_articles_shape cfg ext clock folder st ex :
  let A := articles (out (run cfg ext clock folder st ex)) in
  NoDup (map sourceFile A) /\ (forall a, In a A -> sourceFile a <> "") /\
  StronglySorted key_ge A.
Proof.
  cbv zeta. rewrite run_articles_def. repeat split.
  - eapply Permutation_NoDup; [apply Permutation_map, sort_perm | apply dedup_nodup].
  - intros a Ha. apply sort_in, dedup_in in Ha. tauto.
  - apply sort_sorted.
Qed.

Lemma run_articles_in_folder cfg ext clock folder st ex :
  prune cfg = true ->
  forall a, In a (articles (out (run cfg ext clock folder st ex))) ->
  In (sourceFile a) (map fname folder).
Proof.
  intros Hp a Ha. rewrite run_articles_def in Ha.
  apply sort_in, dedup_in in Ha as [Hne Ha].
  refine (match process_articles (fun s => s = "" \/ In s (map fname folder))
                  cfg ext clock folder 1 _ _ _ a Ha with
          | or_introl E => False_ind _ (Hne E)
          | or_intror H => H
          end).
  - simpl. unfold pruned. rewrite Hp. intros b Hb. now apply prune_in in Hb.
  - intros f Hf. right. now apply in_map.
Qed.

Lemma run_fingerprints cfg ext clock folder st ex :
  NoDup (map fname folder) ->
  forall f, In f folder ->
  dict_get_default (state_files (run cfg ext clock folder st ex)) (fname f) ""
  = sha256_file ext (fbytes f).
Proof. intros Hnd f Hf. simpl. now apply process_fingerprints. Qed.

(** A resumed run over the files of a previous run, with that run's
    fingerprint state and output. *)
Lemma rerun_result cfg ext clock1 clock2 folder st ex :
  NoDup (map fname folder) ->
  let r1 := run cfg ext clock1 folder st ex in
  run (mkConfig true (prune cfg)) ext clock2 folder (state_files r1) (Some (out r1))
  = mkRunResult (mkPayload (clock2 (S (length folder))) (articles (out r1)) [])
                (state_files r1) [] 0 0 [].
Proof.
  intros Hnd r1.
  assert (Hfp := run_fingerprints cfg ext clock1 folder st ex Hnd). fold r1 in Hfp.
  destruct (run_articles_shape cfg ext clock1 folder st ex) as (H1 & H2 & H3).
  assert (Hin := run_articles_in_folder cfg ext clock1 folder st ex). fold r1 in Hin.
  fold r1 in H1, H2, H3. clearbody r1.
  unfold run. rewrite process_skip_all by (reflexivity || exact Hfp).
  cbn [acc_articles acc_errors acc_files acc_missing acc_processed acc_updated acc_calls].
  unfold pruned, carried_forward. cbn [resume prune].
  assert (Hp : (if prune cfg then prune_articles (map fname folder) (articles (out r1))
                else articles (out r1)) = articles (out r1)).
  { destruct (prune cfg) eqn:Ep; [|reflexivity].
    apply prune_id. intros a Ha. now apply Hin. }
  rewrite Hp, dedup_id by assumption. rewrite sort_sorted_id by exact H3. reflexivity.
Qed.

End RunProps.

(** ** What the date parsers can return *)

Module ParseFacts.

Lemma digit_val_le (c : ascii) : is_digit c = true -> digit_val c <= 9.
Proof.
  unfold is_digit, digit_val. intro H. apply andb_prop in H as [_ H].
  apply Nat.leb_le in H. lia.
Qed.

Lemma sep_m_inv {R} (k : list ascii -> option R) (s : list ascii) (r : R) :
  sep_m k s = Some r -> exists t, k t = Some r.
Proof. destruct s as [|c t]; simpl; [discriminate|]. destruct (is_sep c); [eauto|discriminate]. Qed.

Lemma comma_m_inv {R} (k : list ascii -> option R) (s : list ascii) (r : R) :
  comma_m k s = Some r -> exists t, k t = Some r.
Proof.
  destruct s as [|c t]; simpl; [discriminate|]. destruct (Ascii.eqb c ","%char); [eauto|discriminate].
Qed.

Lemma d12_inv {R} (k : nat -> list ascii -> option R) (s : list ascii) (r : R) :
  d12 k s = Some r -> exists n t, k n t = Some r.
Proof.
  unfold d12. destruct s as [|a t]; [discriminate|].
  destruct (is_digit a); [|discriminate].
  destruct t as [|b t']; [eauto|].
  destruct (is_digit b); [|eauto].
  destruct (k _ t') eqn:E; intro H; [|eauto].
  exists (10 * digit_val a + digit_val b), t'. rewrite E. exact H.
Qed.

Lemma year20_inv {R} (k : nat -> list ascii -> option R) (s : list ascii) (r : R) :
  year20 k s = Some r -> exists y t, 2000 <= y <= 2099 /\ k y t = Some r.
Proof.
  unfold year20. destruct s as [|c0 [|c1 [|a [|b t]]]]; try discriminate.
  destruct (Ascii.eqb c0 "2"%char && Ascii.eqb c1 "0"%char && is_digit a && is_digit b) eqn:E;
    [|discriminate].
  apply andb_prop in E as [E Hb]. apply andb_prop in E as [_ Ha].
  apply digit_val_le in Ha. apply digit_val_le in Hb.
  intro H. exists (2000 + 10 * digit_val a + digit_val b), t. split; [lia | exact H].
Qed.

Lemma search_inv {R} (m : list ascii -> option R) (s : list ascii) (r : R) :
  search m s = Some r -> exists t, m t = Some r.
Proof.
  induction s as [|c s IH]; simpl; destruct (m _) eqn:E; intro H;
    try (injection H as <-; eauto); try discriminate; auto.
Qed.

Lemma search_b_inv {R} (m : option ascii -> list ascii -> option R) (s : list ascii) :
  forall (p : option ascii) (r : R), search_b m p s = Some r -> exists p' t, m p' t = Some r.
Proof.
  induction s as [|c s IH]; intros p r; simpl; destruct (m p _) eqn:E; intro H;
    try (injection H as <-; eauto); try discriminate; eauto.
Qed.

Lemma alt_ci_inv {R} (ws : list string) (k : list ascii -> list ascii -> option R)
    (s : list ascii) (r : R) :
  alt_ci ws k s = Some r -> exists m t, k m t = Some r.
Proof.
  induction ws as [|w ws IH]; simpl; [discriminate|].
  destruct (lit_ci _ s []) as [[m rest]|]; [|exact IH].
  destruct (k m rest) eqn:E; [|exact IH]. intro H. injection H as <-. eauto.
Qed.

Lemma opt_dot_inv {R} (k : list ascii -> option R) (s : list ascii) (r : R) :
  opt_dot k s = Some r -> exists t, k t = Some r.
Proof.
  destruct s as [|c t]; simpl; [eauto|].
  destruct (Ascii.eqb c "."%char); [|eauto].
  destruct (k t) eqn:E; [|eauto]. intro H. injection H as <-. eauto.
Qed.

Lemma sp_plus_inv {R} (k : list ascii -> option R) (s : list ascii) (r : R) :
  sp_plus k s = Some r -> exists t, k t = Some r.
Proof.
  induction s as [|c s IH]; simpl; [discriminate|].
  destruct (is_space c); [|discriminate].
  destruct (sp_plus k s) eqn:E; [|eauto]. intro H. injection H as <-. eauto.
Qed.

Lemma opt_suffix_inv {R} (k : list ascii -> option R) (s : list ascii) (r : R) :
  opt_suffix k s = Some r -> exists t, k t = Some r.
Proof.
  unfold opt_suffix. destruct (alt_ci _ _ s) eqn:E; [|eauto].
  intro H. injection H as <-. apply alt_ci_inv in E as (m & t & E). eauto.
Qed.

Lemma iso_at_year (s : list ascii) (y mo d : nat) :
  iso_at s = Some (y, mo, d) -> 2000 <= y <= 2099.
Proof.
  unfold iso_at. intro H.
  apply year20_inv in H as (y0 & t & Hy & H).
  apply sep_m_inv in H as (t1 & H). apply d12_inv in H as (mo0 & t2 & H).
  apply sep_m_inv in H as (t3 & H). apply d12_inv in H as (d0 & t4 & H).
  injection H as <- _ _. exact Hy.
Qed.

Lemma us_at_year (s : list ascii) (y mo d : nat) :
  us_at s = Some (y, mo, d) -> 2000 <= y <= 2099.
Proof.
  unfold us_at. intro H.
  apply d12_inv in H as (mo0 & t & H). apply sep_m_inv in H as (t1 & H).
  apply d12_inv in H as (d0 & t2 & H). apply sep_m_inv in H as (t3 & H).
  apply year20_inv in H as (y0 & t4 & Hy & H).
  injection H as <- _ _. exact Hy.
Qed.

Lemma text_at_year (p : option ascii) (s : list ascii) (mon : list ascii) (day year : nat) :
  text_at p s = Some (mon, day, year) -> 2000 <= year <= 2099.
Proof.
  unfold text_at. destruct (boundary p s); [|discriminate]. intro H.
  apply alt_ci_inv in H as (m & t & H).
  apply opt_dot_inv in H as (t1 & H). apply sp_plus_inv in H as (t2 & H).
  apply d12_inv in H as (dd & t3 & H). apply opt_suffix_inv in H as (t4 & H).
  apply comma_m_inv in H as (t5 & H). apply sp_plus_inv in H as (t6 & H).
  apply year20_inv in H as (y0 & t7 & Hy & H).
  destruct (boundary _ t7); [|discriminate]. injection H as _ _ <-. exact Hy.
Qed.

Lemma date_of_year (m : option (nat * nat * nat)) (d : string) :
  date_of m = Some d ->
  (forall y mo dd, m = Some (y, mo, dd) -> 2000 <= y <= 2099) ->
  exists y mo dd, 2000 <= y <= 2099 /\ py_date y mo dd = Some d.
Proof.
  destruct m as [[[y mo] dd]|]; simpl; [|discriminate].
  intros H Hy. exists y, mo, dd. split; [now apply (Hy y mo dd) | exact H].
Qed.

Lemma filename_year (name d : string) :
  parse_date_from_filename name = Some d ->
  exists y mo dd, 2000 <= y <= 2099 /\ py_date y mo dd = Some d.
Proof.
  unfold parse_date_from_filename.
  destruct (date_of (search iso_at _)) eqn:E.
  - intro H. injection H as <-. apply (date_of_year _ _ E).
    intros y mo dd Hs. apply search_inv in Hs as (t & Hs). exact (iso_at_year _ _ _ _ Hs).
  - intro H. apply (date_of_year _ _ H).
    intros y mo dd Hs. apply search_inv in Hs as (t & Hs). exact (us_at_year _ _ _ _ Hs).
Qed.

Lemma text_year (txt d : string) :
  parse_date_from_text txt = Some d ->
  exists y mo dd, 2000 <= y <= 2099 /\ py_date y mo dd = Some d.
Proof.
  unfold parse_date_from_text.
  destruct (search_b text_at None _) as [[[mon day] year]|] eqn:E; [|discriminate].
  destruct (dict_get month_map _) as [mo|]; [|discriminate].
  intro H. exists year, mo, day. split; [|exact H].
  apply search_b_inv in E as (p & t & E). exact (text_at_year _ _ _ _ _ E).
Qed.

Lemma py_date_nonempty (y mo dd : nat) (d : string) : py_date y mo dd = Some d -> d <> "".
Proof.
  unfold py_date. destruct (_ && _); [|discriminate].
  intro H. injection H as <-. destruct (pad 4 y); discriminate.
Qed.

Lemma filename_nonempty (name d : string) : parse_date_from_filename name = Some d -> d <> "".
Proof. intro H. destruct (filename_year name d H) as (y & mo & dd & _ & E). exact (py_date_nonempty _ _ _ _ E). Qed.

Lemma text_nonempty (txt d : string) : parse_date_from_text txt = Some d -> d <> "".
Proof. intro H. destruct (text_year txt d H) as (y & mo & dd & _ & E). exact (py_date_nonempty _ _ _ _ E). Qed.

End ParseFacts.

(** ** The missing-date rows of a loop that only adds new Articles *)

Module ReportFacts.
Import DedupFacts SortFacts RunFacts.

Definition no_date (a : Article) : bool := String.eqb (date a) "".

Lemma Permutation_filter' {A} (p : A -> bool) (l l' : list A) :
  Permutation l l' -> Permutation (filter p l) (filter p l').
Proof.
  induction 1; simpl.
  - constructor.
  - destruct (p x); [now constructor | exact IHPermutation].
  - destruct (p x), (p y); try constructor; reflexivity.
  - eapply perm_trans; eassumption.
Qed.

Lemma upsert_fresh (n : string) (art : Article) (l : list Article) :
  ~ In n (map sourceFile l) -> upsert n art l = l ++ [art].
Proof.
  induction l as [|a l IH]; intro H; simpl; [reflexivity|].
  destruct (String.eqb (sourceFile a) n) eqn:E.
  - exfalso. apply H. left. now apply String.eqb_eq.
  - f_equal. apply IH. intro H'. apply H. now right.
Qed.

(** A step leaves the collection and the rows alone, or upserts one Article
    for this file and adds its row when its date is empty. *)
Lemma step_shape cfg ext clock i f acc :
  (acc_articles (step cfg ext clock i f acc) = acc_articles acc /\
   acc_missing (step cfg ext clock i f acc) = acc_missing acc)
  \/ exists art, sourceFile art = fname f /\
     acc_articles (step cfg ext clock i f acc) = upsert (fname f) art (acc_articles acc) /\
     acc_missing (step cfg ext clock i f acc)
     = acc_missing acc ++ (if no_date art then [row_of art] else []).
Proof.
  unfold step. destruct (resume cfg && _); [now left|].
  destruct (extract_text ext f) as [raw cs].
  destruct (word_count (normalize_whitespace raw) =? 0) eqn:Ew; [now left|].
  destruct (exc_bind _ _) as [art|e] eqn:Hb; [right|now left].
  exists art. destruct (openai_infer ext (normalize_whitespace raw)) as [meta|]; [|discriminate].
  simpl in Hb. apply build_article_fields in Hb as [Hsf Hwc].
  simpl. split; [exact Hsf|]. split; [reflexivity|].
  unfold no_date, row_of. rewrite Hsf, Hwc. reflexivity.
Qed.

Definition report_inv (fs : list File) (acc : Acc) : Prop :=
  NoDup (map sourceFile (acc_articles acc)) /\
  (forall a, In a (acc_articles acc) -> sourceFile a <> "") /\
  (forall a, In a (acc_articles acc) -> ~ In (sourceFile a) (map fname fs)) /\
  Permutation (acc_missing acc) (map row_of (filter no_date (acc_articles acc))).

Lemma process_report cfg ext clock (fs : list File) : forall i acc,
  NoDup (map fname fs) -> (forall f, In f fs -> fname f <> "") ->
  report_inv fs acc -> report_inv [] (process_files cfg ext clock i fs acc).
Proof.
  induction fs as [|f fs IH]; intros i acc Hnd Hne Hinv; simpl; [exact Hinv|].
  inversion Hnd as [|? ? Hf Hnd']; subst.
  apply IH; [exact Hnd' | intros g Hg; apply Hne; now right |].
  destruct Hinv as (H1 & H2 & H3 & H4). unfold report_inv.
  destruct (step_shape cfg ext clock i f acc) as [[-> ->] | (art & Hsf & -> & ->)].
  - repeat split; auto. intros a Ha Hin. apply (H3 a Ha). now right.
  - assert (Hfresh : ~ In (fname f) (map sourceFile (acc_articles acc))).
    { intro Hin. apply in_map_iff in Hin as (a & Ha & Hin).
      apply (H3 a Hin). rewrite Ha. now left. }
    rewrite upsert_fresh by exact Hfresh. repeat split.
    + rewrite map_app. simpl.
      apply (Permutation_NoDup (Permutation_cons_append _ _)). constructor; [|exact H1].
      now rewrite Hsf.
    + intros a Ha. apply in_app_or in Ha as [Ha|[<-|[]]]; [now apply H2|].
      rewrite Hsf. apply Hne. now left.
    + intros a Ha. apply in_app_or in Ha as [Ha|[<-|[]]].
      * intro Hin. apply (H3 a Ha). now right.
      * now rewrite Hsf.
    + rewrite filter_app, map_app. apply Permutation_app; [exact H4|].
      simpl. destruct (no_date art); reflexivity.
Qed.

(** A run that carries nothing forward: its rows are those of its final
    collection's Articles with an empty date. *)
Lemma run_missing_rows cfg ext clock folder st ex :
  carried_forward cfg ex = [] ->
  NoDup (map fname folder) -> (forall f, In f folder -> fname f <> "") ->
  let r := run cfg ext clock folder st ex in
  Permutation (missing_rows r) (map row_of (filter no_date (articles (out r)))).
Proof.
  intros Hc Hnd Hne. cbv zeta. unfold run. rewrite Hc.
  assert (Hp : pruned cfg folder [] = []) by (unfold pruned; now destruct (prune cfg)).
  rewrite Hp.
  assert (Hinit : report_inv folder (mkAcc [] [] st 0 0 [] []))
    by (repeat split; simpl; try contradiction; constructor).
  destruct (process_report cfg ext clock folder 1 _ Hnd Hne Hinit) as (H1 & H2 & _ & H4).
  cbn [out articles missing_rows].
  rewrite dedup_id by assumption.
  rewrite H4. apply Permutation_map, Permutation_filter', sort_perm.
Qed.

End ReportFacts.

(** ** Two more facts on dedup and on the sort *)

Module MoreFacts.
Import KeyOrder SortFacts DictFacts DedupFacts.

Lemma last_with_some (k : string) (l : list Article) (a : Article) :
  In a l -> sourceFile a = k -> exists b, last_with k l = Some b.
Proof.
  induction l as [|x l IH] using rev_ind; [contradiction|].
  intros Ha Hk. rewrite last_with_app. destruct (String.eqb (sourceFile x) k) eqn:E; [eauto|].
  apply in_app_or in Ha as [Ha|[<-|[]]]; [now apply IH|].
  apply String.eqb_neq in E. contradiction.
Qed.

(** Every non-empty [sourceFile] of the input survives the dedup. *)
Lemma dedup_covers (l : list Article) (a : Article) :
  In a l -> sourceFile a <> "" ->
  exists b, In b (dedup_articles l) /\ sourceFile b = sourceFile a.
Proof.
  intros Ha Hne. destruct (last_with_some (sourceFile a) l a Ha eq_refl) as (b & Hb).
  rewrite <- dedup_get in Hb by exact Hne. apply dict_get_in in Hb.
  destruct (proj2 (dedup_map_entries l) _ _ Hb) as (Hsf & _ & _).
  exists b. split; [|exact Hsf].
  unfold dedup_articles, dict_values. apply in_map_iff. now exists (sourceFile a, b).
Qed.

(** In a sorted collection nothing with a date follows an entry without one. *)
Lemma no_date_last (l pre post : list Article) (a b : Article) :
  sort_articles l = pre ++ a :: post -> date a = "" -> In b post -> date b = "".
Proof.
  intros Hl Ha Hb. assert (Hs := sort_sorted l). rewrite Hl in Hs.
  destruct (StronglySorted_app_inv _ _ _ Hs) as (_ & Hs2 & _).
  inversion Hs2 as [|? ? _ Hf]; subst. rewrite Forall_forall in Hf.
  specialize (Hf b Hb). unfold key_ge, key_compare in Hf. rewrite Ha in Hf.
  apply string_compare_empty_l. destruct (String.compare "" (date b)); congruence.
Qed.

End MoreFacts.

(** * The claims *)

(** ** The Articles built in a run and the missing-date rows *)

Module ProcessedFacts.
Import RunFacts.

(** What a step does to the rows and to [processed], by the Article it builds. *)
Lemma step_article_step cfg ext clock i f acc :
  match step_article cfg ext clock i f acc with
  | None => acc_missing (step cfg ext clock i f acc) = acc_missing acc /\
            acc_processed (step cfg ext clock i f acc) = acc_processed acc
  | Some art => sourceFile art = fname f /\
      acc_missing (step cfg ext clock i f acc)
      = acc_missing acc ++ (if String.eqb (date art) "" then [row_of art] else []) /\
      acc_processed (step cfg ext clock i f acc) = S (acc_processed acc)
  end.
Proof.
  unfold step_article, step. cbv zeta.
  destruct (resume cfg && _); [split; reflexivity|].
  destruct (extract_text ext f) as [raw cs].
  destruct (word_count (normalize_whitespace raw) =? 0); [split; reflexivity|].
  destruct (exc_bind _ _) as [art|e] eqn:Hb; [|split; reflexivity].
  assert (Hf : sourceFile art = fname f /\ wordCount art = word_count (normalize_whitespace raw)).
  { destruct (openai_infer ext _) as [meta|]; [|discriminate].
    simpl in Hb. now apply build_article_fields in Hb. }
  destruct Hf as [Hsf Hwc]. cbn [acc_missing acc_processed].
  split; [exact Hsf|]. split; [|reflexivity].
  unfold row_of. rewrite Hsf, Hwc. reflexivity.
Qed.

Lemma processed_rows cfg ext clock (fs : list File) : forall i acc,
  acc_missing (process_files cfg ext clock i fs acc)
  = acc_missing acc ++ map row_of (filter (fun b => String.eqb (date b) "")
                                     (processed_articles cfg ext clock i fs acc)) /\
  acc_processed (process_files cfg ext clock i fs acc)
  = acc_processed acc + length (processed_articles cfg ext clock i fs acc) /\
  exists bs : list bool,
    map sourceFile (processed_articles cfg ext clock i fs acc)
    = map (fun p => fname (snd p)) (filter fst (combine bs fs)).
Proof.
  induction fs as [|f fs IH]; intros i acc; cbn [process_files processed_articles].
  - split; [now rewrite app_nil_r|]. split; [simpl; lia|]. exists []. reflexivity.
  - destruct (IH (S i) (step cfg ext clock i f acc)) as (H1 & H2 & bs & H3).
    pose proof (step_article_step cfg ext clock i f acc) as Hs.
    destruct (step_article cfg ext clock i f acc) as [art|].
    + destruct Hs as (Hsf & Hm & Hp). rewrite H1, Hm, <- app_assoc. split.
      * f_equal. cbn [app filter]. destruct (String.eqb (date art) ""); reflexivity.
      * split; [rewrite H2, Hp; simpl; lia|]. exists (true :: bs). simpl. now rewrite Hsf, H3.
    + destruct Hs as (Hm & Hp). rewrite H1, Hm. split; [reflexivity|].
      split; [rewrite H2, Hp; simpl; lia|]. exists (false :: bs). exact H3.
Qed.

End ProcessedFacts.

Module Claims.
Import KeyOrder SortFacts DictFacts DedupFacts RunFacts RunProps ParseFacts ReportFacts MoreFacts
  ProcessedFacts.

(** C1 (counterexample): over the sample folder, where the inference call
    fails for ["b.docx"], a second resumed run writes an output that differs
    from the first run's, although the clock returns the same time: its
    error list is empty. *)
Lemma resume_rerun_output_differs : out sample_run2 <> out sample_run1.
Proof. intro H. apply (f_equal errors) in H. vm_compute in H. discriminate H. Qed.

(** C1 (amended): a resumed run over the unchanged folder, given the first
    run's fingerprint state and output, processes and updates nothing,
    calls no tool, exits with 0, keeps the state, writes no missing-date
    row and writes the first run's articles in the same order with an empty
    error list and its own timestamp; so its output equals the first one
    exactly when the first run recorded no error and both timestamps agree. *)
Theorem resume_rerun_no_updates cfg ext clock1 clock2 folder st ex :
  NoDup (map fname folder) ->
  let r1 := run cfg ext clock1 folder st ex in
  let r2 := run (mkConfig true (prune cfg)) ext clock2 folder (state_files r1) (Some (out r1)) in
  n_updated r2 = 0 /\ n_processed r2 = 0 /\ exit_code r2 = 0 /\ call_log r2 = [] /\
  state_files r2 = state_files r1 /\ missing_rows r2 = [] /\
  out r2 = mkPayload (clock2 (S (length folder))) (articles (out r1)) [] /\
  (out r2 = out r1 <->
   errors (out r1) = [] /\ clock2 (S (length folder)) = clock1 (S (length folder))).
Proof.
  intros Hnd. assert (E := rerun_result cfg ext clock1 clock2 folder st ex Hnd).
  cbv zeta in E |- *. rewrite E. cbn [n_updated n_processed call_log state_files missing_rows out].
  do 7 (split; [reflexivity|]).
  assert (G : generatedAt (out (run cfg ext clock1 folder st ex)) = clock1 (S (length folder)))
    by reflexivity.
  destruct (out (run cfg ext clock1 folder st ex)) as [g arts errs]. cbn in G |- *. subst g.
  split.
  - intro H. injection H as Hg Herr. split; congruence.
  - intros [-> ->]. reflexivity.
Qed.

(** Witness of C1 on the sample folder. *)
Lemma resume_rerun_no_updates_witness :
  NoDup (map fname sample_folder) /\ n_updated sample_run2 = 0 /\
  out sample_run2 = mkPayload (sample_clock 4) (articles (out sample_run1)) [].
Proof.
  assert (Hnd : NoDup (map fname sample_folder))
    by (vm_compute; repeat constructor; simpl; intuition discriminate).
  destruct (resume_rerun_no_updates (mkConfig true false) sample_ext sample_clock sample_clock
              sample_folder [] None Hnd) as (H1 & _ & _ & _ & _ & _ & H7 & _).
  split; [exact Hnd|]. split; [exact H1 | exact H7].
Defined.

(** C2: when the file is not skipped, has words, and the inference call
    raises [e], the step appends [(name, e)] to the errors, leaves the
    collection, counters and missing-date rows alone, records the file's
    fingerprint and goes on with the next file; and a later resumed run over
    the unchanged folder records no error, keeps the collection and calls
    nothing. *)
Theorem inference_error_recorded cfg ext clock i f acc e :
  (resume cfg && String.eqb (dict_get_default (acc_files acc) (fname f) "")
                            (sha256_file ext (fbytes f))) = false ->
  word_count (normalize_whitespace (fst (extract_text ext f))) <> 0 ->
  openai_infer ext (normalize_whitespace (fst (extract_text ext f))) = Raise e ->
  step cfg ext clock i f acc
  = mkAcc (acc_articles acc) (acc_errors acc ++ [(fname f, e)])
          (dict_set (acc_files acc) (fname f) (sha256_file ext (fbytes f)))
          (acc_processed acc) (acc_updated acc) (acc_missing acc)
          ((acc_calls acc ++ snd (extract_text ext f)) ++ [CallInfer (fname f)]) /\
  (forall fs, process_files cfg ext clock i (f :: fs) acc
              = process_files cfg ext clock (S i) fs (step cfg ext clock i f acc)) /\
  (forall clock1 clock2 folder st ex,
     In f folder -> NoDup (map fname folder) ->
     let r1 := run cfg ext clock1 folder st ex in
     let r2 := run (mkConfig true (prune cfg)) ext clock2 folder (state_files r1) (Some (out r1)) in
     dict_get_default (state_files r1) (fname f) "" = sha256_file ext (fbytes f) /\
     errors (out r2) = [] /\ articles (out r2) = articles (out r1) /\ call_log r2 = []).
Proof.
  intros Hs Hw Hi. split; [|split; [reflexivity|]].
  - unfold step. rewrite Hs. destruct (extract_text ext f) as [raw cs]. simpl in Hw, Hi |- *.
    apply Nat.eqb_neq in Hw. rewrite Hw, Hi. reflexivity.
  - intros clock1 clock2 folder st ex Hf Hnd.
    assert (E := rerun_result cfg ext clock1 clock2 folder st ex Hnd).
    cbv zeta in E |- *. rewrite E. cbn [errors articles out call_log].
    repeat split. now apply run_fingerprints.
Qed.

(** Witness of C2: ["b.docx"] of the sample folder. *)
Lemma inference_error_recorded_witness :
  step (mkConfig true false) sample_ext sample_clock 2 (mkFile "b.docx" "boom text")
       (mkAcc [] [] [] 0 0 [] [])
  = mkAcc [] [("b.docx", "APIError: timeout")] [("b.docx", "sha256:boom text")] 0 0 []
          [CallPandoc "b.docx"; CallInfer "b.docx"].
Proof.
  refine (proj1 (inference_error_recorded (mkConfig true false) sample_ext sample_clock 2
                   (mkFile "b.docx" "boom text") (mkAcc [] [] [] 0 0 [] [])
                   "APIError: timeout" _ _ _)).
  - vm_compute. reflexivity.
  - intro H. vm_compute in H. discriminate H.
  - vm_compute. reflexivity.
Defined.

(** C3 (counterexample): in the second sample run ["a.docx"] is skipped and
    carried forward with an empty date, yet the report has only its header. *)
Lemma missing_report_skips_carried :
  missing_csv sample_run2 = [["sourceFile"; "title"; "wordCount"]] /\
  exists a, In a (articles (out sample_run2)) /\ date a = "".
Proof.
  split; [vm_compute; reflexivity|].
  vm_compute. eexists. split; [left; reflexivity | reflexivity].
Qed.

(** C3 (amended): the report is written fresh from the rows of this run:
    its rows are, in processing order, the (file name, title, word count) of
    the Articles built in this run whose date is empty, one per such
    Article; as many Articles are built as documents are counted processed,
    and they come from the folder's files in folder order. Articles carried
    forward without being built again have no row. In a run without
    [--resume], over files with distinct non-empty names, the rows are, up
    to order, those of the final collection's Articles with an empty date. *)
Theorem missing_report_rows cfg ext clock folder st ex :
  let r := run cfg ext clock folder st ex in
  let P := run_processed cfg ext clock folder st ex in
  missing_csv r = ["sourceFile"; "title"; "wordCount"]
                    :: map (fun '(n, t, w) => [n; t; str_of_nat w]) (missing_rows r) /\
  missing_rows r = map row_of (filter (fun a => String.eqb (date a) "") P) /\
  length P = n_processed r /\
  (exists bs : list bool,
     map sourceFile P = map (fun p => fname (snd p)) (filter fst (combine bs folder))) /\
  (resume cfg = false -> NoDup (map fname folder) -> (forall f, In f folder -> fname f <> "") ->
   Permutation (missing_rows r)
               (map row_of (filter (fun a => String.eqb (date a) "") (articles (out r))))).
Proof.
  cbv zeta. split; [reflexivity|].
  unfold run_processed.
  destruct (processed_rows cfg ext clock folder 1 (acc0 cfg folder st ex)) as (H1 & H2 & H3).
  change (acc_missing (acc0 cfg folder st ex)) with (@nil (string * string * nat)) in H1.
  change (acc_processed (acc0 cfg folder st ex)) with 0 in H2.
  split; [|split; [|split; [exact H3|]]].
  - unfold run. fold (acc0 cfg folder st ex). cbn [missing_rows]. exact H1.
  - unfold run. fold (acc0 cfg folder st ex). cbn [n_processed]. rewrite H2. reflexivity.
  - intros Hr Hnd Hne.
    apply run_missing_rows; [unfold carried_forward; now rewrite Hr | exact Hnd | exact Hne].
Qed.

(** Witness of C3 on the sample folder, without [--resume]: one row, for
    ["a.docx"], whose Article has no date. *)
Lemma missing_report_rows_witness :
  missing_rows (run (mkConfig false false) sample_ext sample_clock sample_folder [] None)
  = [("a.docx", "Op-ed", 2)] /\
  Permutation (missing_rows (run (mkConfig false false) sample_ext sample_clock sample_folder [] None))
    (map row_of (filter (fun a => String.eqb (date a) "")
       (articles (out (run (mkConfig false false) sample_ext sample_clock sample_folder [] None))))).
Proof.
  split; [vm_compute; reflexivity|].
  refine (proj2 (proj2 (proj2 (proj2 (missing_report_rows (mkConfig false false) sample_ext
            sample_clock sample_folder [] None)))) _ _ _).
  - reflexivity.
  - vm_compute. repeat constructor; simpl; intuition discriminate.
  - intros f Hf. simpl in Hf. destruct Hf as [<-|[<-|[<-|[]]]]; discriminate.
Defined.

(** C4: a reply whose ["title"] is truthy but not a string makes
    [(meta.get("title") or "").strip()] raise, so the document fails with
    that error instead of falling back to the file name's stem. *)
Theorem nonstring_title_raises name txt wc dg now kvs :
  truthy (dict_get_default kvs "title" JNull) = true ->
  (forall s, dict_get_default kvs "title" JNull <> JStr s) ->
  build_article name txt wc dg now (JObj kvs)
  = Raise (no_attr (dict_get_default kvs "title" JNull) "strip").
Proof.
  intros Ht Hs. unfold build_article, json_get, exc_bind at 1, or_empty_strip at 1.
  rewrite Ht. destruct (dict_get_default kvs "title" JNull); try reflexivity.
  exfalso. eapply Hs. reflexivity.
Qed.

(** Witness of C4: the title [42]; the whole run then records the error and
    writes no Article. *)
Lemma nonstring_title_raises_witness :
  build_article "x.docx" "some words" 2 "" "2026-01-01T00:00:00" int_title_meta
  = Raise "'int' object has no attribute 'strip'" /\
  out int_title_run
  = mkPayload "2026-01-01T00:00:00" [] [("x.docx", "'int' object has no attribute 'strip'")].
Proof.
  split; [|vm_compute; reflexivity].
  refine (nonstring_title_raises "x.docx" "some words" 2 "" "2026-01-01T00:00:00" _ _ _).
  - reflexivity.
  - intros s H. discriminate H.
Defined.

(** C5: a run's collection has pairwise distinct [sourceFile]s; the dedup
    keeps, for each non-empty [sourceFile], exactly the last Article with it. *)
Theorem one_article_per_source cfg ext clock folder st ex :
  NoDup (map sourceFile (articles (out (run cfg ext clock folder st ex)))) /\
  (forall l, NoDup (map sourceFile (dedup_articles l))) /\
  (forall l a, In a (dedup_articles l) ->
     exists pre post, l = pre ++ a :: post /\ forall b, In b post -> sourceFile b <> sourceFile a) /\
  (forall l a, In a l -> sourceFile a <> "" ->
     exists b, In b (dedup_articles l) /\ sourceFile b = sourceFile a).
Proof.
  split; [apply run_articles_shape|]. split; [exact dedup_nodup|].
  split; [exact dedup_last | exact dedup_covers].
Qed.

(** Witness of C5: two Articles for one file; the later one is kept. *)
Lemma one_article_per_source_witness :
  exists pre post,
    [sample_article "a.docx" "Old" ""; sample_article "a.docx" "New" ""]
    = pre ++ sample_article "a.docx" "New" "" :: post /\
    forall b, In b post -> sourceFile b <> "a.docx".
Proof.
  destruct one_article_per_source with (cfg := mkConfig false false) (ext := sample_ext)
    (clock := sample_clock) (folder := @nil File) (st := @nil (string * string)) (ex := @None Payload)
    as (_ & _ & H & _).
  apply H. vm_compute. left. reflexivity.
Defined.

(** C6: with [--prune], every Article of the run's collection comes from a
    listed file, and pruning keeps every carried-forward Article whose file
    is listed. *)
Theorem prune_keeps_present cfg ext clock folder st ex :
  prune cfg = true ->
  (forall a, In a (articles (out (run cfg ext clock folder st ex))) ->
     In (sourceFile a) (map fname folder)) /\
  (forall a, In a (carried_forward cfg ex) -> In (sourceFile a) (map fname folder) ->
     In a (pruned cfg folder (carried_forward cfg ex))).
Proof.
  intro Hp. split.
  - now apply run_articles_in_folder.
  - intros a Ha Hn. unfold pruned. rewrite Hp. now apply prune_keeps.
Qed.

(** Witness of C6: a resumed, pruned run over the sample folder keeps the
    carried-forward Article of ["a.docx"]. *)
Lemma prune_keeps_present_witness :
  In (hd (sample_article "" "" "") (articles (out sample_run1)))
     (pruned (mkConfig true true) sample_folder
             (carried_forward (mkConfig true true) (Some (out sample_run1)))).
Proof.
  refine (proj2 (prune_keeps_present (mkConfig true true) sample_ext sample_clock sample_folder
                   [] (Some (out sample_run1)) eq_refl) _ _ _).
  - vm_compute. left. reflexivity.
  - vm_compute. left. reflexivity.
Defined.

(** C7: the sort puts a collection in descending (date, title) order, is a
    permutation of it, keeps Articles with equal keys in their input order,
    puts entries without a date after all others, and orders the three
    Articles B, A (dated 2024-03-01) and Z (no date) as B, A, Z from every
    input order. *)
Theorem sort_order (l : list Article) :
  StronglySorted key_ge (sort_articles l) /\ Permutation l (sort_articles l) /\
  (forall a, filter (same_key a) (sort_articles l) = filter (same_key a) l) /\
  (forall pre a post b, sort_articles l = pre ++ a :: post -> date a = "" -> In b post ->
     date b = "") /\
  (forall b a z, date b = "2024-03-01" -> title b = "B" -> date a = "2024-03-01" ->
     title a = "A" -> date z = "" -> title z = "Z" ->
     Forall (fun l => sort_articles l = [b; a; z])
            [[b; a; z]; [b; z; a]; [a; b; z]; [a; z; b]; [z; a; b]; [z; b; a]]).
Proof.
  split; [apply sort_sorted|]. split; [apply sort_perm|]. split; [intro a; apply sort_stable|].
  split; [intros pre a post b; apply no_date_last|].
  intros [] [] [] Hb1 Hb2 Ha1 Ha2 Hz1 Hz2; cbn in *; subst.
  repeat constructor.
Qed.

(** Witness of C7 on three concrete Articles. *)
Lemma sort_order_witness :
  sort_articles [sample_article "z.docx" "Z" ""; sample_article "a.docx" "A" "2024-03-01";
                 sample_article "b.docx" "B" "2024-03-01"]
  = [sample_article "b.docx" "B" "2024-03-01"; sample_article "a.docx" "A" "2024-03-01";
     sample_article "z.docx" "Z" ""].
Proof.
  destruct (sort_order []) as (_ & _ & _ & _ & H).
  specialize (H (sample_article "b.docx" "B" "2024-03-01") (sample_article "a.docx" "A" "2024-03-01")
                (sample_article "z.docx" "Z" "") eq_refl eq_refl eq_refl eq_refl eq_refl eq_refl).
  repeat match type of H with Forall _ (_ :: _) => inversion H; subst; clear H end.
  assumption.
Defined.

(** C8: for a processed document, the date and its provenance come from the
    file name's date if it parses, else from the text's long-form date, else
    from the inference reply's stripped ["date"]; when that is empty too the
    date and the provenance are empty. *)
Theorem date_resolution_order name txt wc now meta art :
  build_article name txt wc (date_guess_of name txt) now meta = Ret art ->
  exists date_ai,
    exc_bind (json_get meta "date") or_empty_strip = Ret date_ai /\ dateISO art = date art /\
    match parse_date_from_filename name, parse_date_from_text txt with
    | Some d, _ => date art = d /\ dateSource art = "filename/text"
    | None, Some d => date art = d /\ dateSource art = "filename/text"
    | None, None =>
        date art = date_ai /\ dateSource art = (if String.eqb date_ai "" then "" else "ai")
    end.
Proof.
  unfold build_article. unfold exc_bind at 1 2 3 4 5 6 7.
  destruct (json_get meta "title") as [t|]; [|discriminate].
  destruct (or_empty_strip t) as [t'|]; [|discriminate].
  destruct (json_get meta "date") as [d|] eqn:Ed; [|discriminate].
  destruct (or_empty_strip d) as [d'|] eqn:Ed'; [|discriminate].
  destruct (json_get meta "summary") as [sm|]; [|discriminate].
  destruct (or_empty_strip sm) as [sm'|]; [|discriminate].
  destruct (json_get meta "topics") as [tp|]; [|discriminate].
  intro H. injection H as <-. exists d'.
  split; [exact Ed'|]. split; [reflexivity|].
  cbn [date dateSource]. unfold date_guess_of.
  destruct (parse_date_from_filename name) as [d1|] eqn:E1.
  - assert (N := filename_nonempty _ _ E1). apply String.eqb_neq in N.
    simpl. unfold or_str. rewrite N. simpl. try rewrite N. auto.
  - destruct (parse_date_from_text txt) as [d2|] eqn:E2.
    + assert (N := text_nonempty _ _ E2). apply String.eqb_neq in N.
      simpl. unfold or_str. rewrite N. simpl. try rewrite N. auto.
    + simpl. unfold or_str. simpl.
      destruct (String.eqb d' "") eqn:E; [apply String.eqb_eq in E; subst|]; auto.
Qed.

(** Witness of C8: the name carries 2024-03-05, the text June 1, 2023 and
    the reply 2022-01-01; the name's date wins. *)
Lemma date_resolution_order_witness :
  parse_date_from_filename dated_name = Some "2024-03-05" /\
  parse_date_from_text dated_text = Some "2023-06-01" /\
  date dated_article = "2024-03-05" /\ dateSource dated_article = "filename/text".
Proof.
  assert (Hb : build_article dated_name dated_text 6 (date_guess_of dated_name dated_text)
                 "2026-01-01T00:00:00" dated_meta = Ret dated_article)
    by (vm_compute; reflexivity).
  destruct (date_resolution_order _ _ _ _ _ _ Hb) as (dai & _ & _ & H).
  assert (E1 : parse_date_from_filename dated_name = Some "2024-03-05")
    by (vm_compute; reflexivity).
  assert (E2 : parse_date_from_text dated_text = Some "2023-06-01")
    by (vm_compute; reflexivity).
  rewrite E1 in H. destruct H as [H1 H2]. repeat split; assumption.
Defined.

(** C9: when the file is not skipped and its text has no word, the step
    only records the file's fingerprint and the extraction calls: no
    inference call, no Article, no error, no row; and a later resumed run
    over the unchanged folder calls nothing. *)
Theorem empty_document_skipped cfg ext clock i f acc :
  (resume cfg && String.eqb (dict_get_default (acc_files acc) (fname f) "")
                            (sha256_file ext (fbytes f))) = false ->
  word_count (normalize_whitespace (fst (extract_text ext f))) = 0 ->
  step cfg ext clock i f acc
  = mkAcc (acc_articles acc) (acc_errors acc)
          (dict_set (acc_files acc) (fname f) (sha256_file ext (fbytes f)))
          (acc_processed acc) (acc_updated acc) (acc_missing acc)
          (acc_calls acc ++ snd (extract_text ext f)) /\
  ~ In (CallInfer (fname f)) (snd (extract_text ext f)) /\
  (forall clock1 clock2 folder st ex,
     In f folder -> NoDup (map fname folder) ->
     let r1 := run cfg ext clock1 folder st ex in
     let r2 := run (mkConfig true (prune cfg)) ext clock2 folder (state_files r1) (Some (out r1)) in
     dict_get_default (state_files r1) (fname f) "" = sha256_file ext (fbytes f) /\
     call_log r2 = []).
Proof.
  intros Hs Hw. split; [|split].
  - unfold step. rewrite Hs. destruct (extract_text ext f) as [raw cs]. simpl in Hw |- *.
    rewrite Hw. reflexivity.
  - unfold extract_text. destruct (String.eqb _ ""); simpl; intuition discriminate.
  - intros clock1 clock2 folder st ex Hf Hnd.
    assert (E := rerun_result cfg ext clock1 clock2 folder st ex Hnd).
    cbv zeta in E |- *. rewrite E. cbn [call_log].
    split; [now apply run_fingerprints | reflexivity].
Qed.

(** Witness of C9: ["c.docx"] of the sample folder is empty. *)
Lemma empty_document_skipped_witness :
  step (mkConfig true false) sample_ext sample_clock 3 (mkFile "c.docx" "")
       (mkAcc [] [] [] 0 0 [] [])
  = mkAcc [] [] [("c.docx", "sha256:")] 0 0 [] [CallPandoc "c.docx"; CallFallback "c.docx"].
Proof.
  refine (proj1 (empty_document_skipped (mkConfig true false) sample_ext sample_clock 3
                   (mkFile "c.docx" "") (mkAcc [] [] [] 0 0 [] []) _ _)).
  - vm_compute. reflexivity.
  - vm_compute. reflexivity.
Defined.

(** C10: every date the file-name parser or the text parser returns is a
    valid calendar date whose year is between 2000 and 2099, so the
    deterministic guess is empty or such a date. *)
Theorem date_parsers_20xx name txt d :
  (parse_date_from_filename name = Some d ->
   exists y mo dd, 2000 <= y <= 2099 /\ py_date y mo dd = Some d) /\
  (parse_date_from_text txt = Some d ->
   exists y mo dd, 2000 <= y <= 2099 /\ py_date y mo dd = Some d) /\
  (date_guess_of name txt = "" \/
   exists y mo dd, 2000 <= y <= 2099 /\ py_date y mo dd = Some (date_guess_of name txt)).
Proof.
  split; [apply filename_year|]. split; [apply text_year|].
  unfold date_guess_of.
  destruct (parse_date_from_filename name) as [d1|] eqn:E1.
  - right. assert (N := filename_nonempty _ _ E1). apply String.eqb_neq in N.
    simpl. unfold or_str. rewrite N. exact (filename_year _ _ E1).
  - destruct (parse_date_from_text txt) as [d2|] eqn:E2.
    + right. assert (N := text_nonempty _ _ E2). apply String.eqb_neq in N.
      simpl. unfold or_str. rewrite N. exact (text_year _ _ E2).
    + left. reflexivity.
Qed.

(** Witness of C10: the years 1999 are not recognised, 2099 is. *)
Lemma date_parsers_20xx_witness :
  parse_date_from_filename "1999-05-04 column.docx" = None /\
  parse_date_from_text "May 4, 1999" = None /\
  exists y mo dd, 2000 <= y <= 2099 /\ py_date y mo dd = Some "2099-05-04".
Proof.
  split; [vm_compute; reflexivity|]. split; [vm_compute; reflexivity|].
  apply (date_parsers_20xx "" "May 4, 2099" "2099-05-04"). vm_compute. reflexivity.
Defined.

End Claims.

Module TextFacts.

Ltac all_ascii c := destruct c as [[] [] [] [] [] [] [] []]; reflexivity.

Lemma space_not_word (c : ascii) : is_space c = true -> is_word c = false.
Proof. revert c; intros [[] [] [] [] [] [] [] []]; vm_compute; congruence. Qed.

Lemma list_ascii_app (s1 s2 : string) :
  list_ascii_of_string (s1 ++ s2) = list_ascii_of_string s1 ++ list_ascii_of_string s2.
Proof. induction s1 as [|c s1 IH]; simpl; [reflexivity | now rewrite IH]. Qed.

Lemma word_runs_cons_nonword (c : ascii) (l : list ascii) (b : bool) :
  is_word c = false -> word_runs (c :: l) b = word_runs l false.
Proof. intro H. simpl. now rewrite H. Qed.

Lemma word_runs_map (f : ascii -> ascii) (l : list ascii) (b : bool) :
  (forall c, is_word (f c) = is_word c) -> word_runs (map f l) b = word_runs l b.
Proof.
  intro Hf. revert b. induction l as [|c l IH]; intro b; simpl; [reflexivity|].
  rewrite Hf. destruct (is_word c), b; rewrite ?IH; reflexivity.
Qed.

Lemma word_runs_crlf (l : list ascii) (b : bool) : word_runs (replace_crlf l) b = word_runs l b.
Proof.
  remember (length l) as n eqn:En. assert (Hn : length l <= n) by lia. clear En.
  revert l b Hn. induction n as [|n IH]; intros l b Hn.
  - destruct l; [reflexivity | simpl in Hn; lia].
  - destruct l as [|c [|d t]]; [reflexivity | reflexivity |].
    assert (Eq : replace_crlf (c :: d :: t)
                 = if Ascii.eqb c CR && Ascii.eqb d LF then LF :: replace_crlf t
                   else c :: replace_crlf (d :: t)) by reflexivity.
    rewrite Eq. destruct (Ascii.eqb c CR && Ascii.eqb d LF) eqn:E.
    + apply andb_prop in E as [E1 E2]. apply Ascii.eqb_eq in E1, E2. subst c d.
      rewrite !word_runs_cons_nonword by reflexivity. apply IH. simpl in Hn. lia.
    + change (word_runs (c :: replace_crlf (d :: t)) b = word_runs (c :: d :: t) b).
      cbn [word_runs]. destruct (is_word c), b; rewrite IH by (simpl in *; lia); reflexivity.
Qed.

Lemma word_runs_blanks (l : list ascii) : forall r b,
  (r = true -> b = false) -> word_runs (collapse_blanks l r) b = word_runs l b.
Proof.
  induction l as [|c l IH]; intros r b Hrb; simpl; [reflexivity|].
  destruct (is_blank c) eqn:Eb.
  - assert (Hw : is_word c = false)
      by (revert Eb; destruct c as [[] [] [] [] [] [] [] []]; vm_compute; congruence).
    rewrite Hw. destruct r.
    + rewrite (Hrb eq_refl). apply IH. reflexivity.
    + simpl. apply IH. reflexivity.
  - simpl. destruct (is_word c), b; rewrite ?IH; congruence.
Qed.

Lemma word_runs_lfs (n : nat) (m : list ascii) (b : bool) :
  word_runs (repeat LF n ++ m) b = word_runs m (b && (n =? 0)).
Proof.
  revert b. induction n as [|n IH]; intro b; simpl.
  - now rewrite andb_true_r.
  - rewrite IH. now rewrite andb_false_r.
Qed.

Lemma newline_run_zero (k : nat) : ((if 3 <=? k then 2 else k) =? 0) = (k =? 0).
Proof. destruct k as [|[|[|k]]]; reflexivity. Qed.

Lemma word_runs_newlines (l : list ascii) : forall k b,
  word_runs (collapse_newlines l k) b = word_runs l (b && (k =? 0)).
Proof.
  induction l as [|c l IH]; intros k b; simpl.
  - unfold newline_run. rewrite <- (app_nil_r (repeat LF _)), word_runs_lfs. reflexivity.
  - destruct (Ascii.eqb c LF) eqn:E.
    + apply Ascii.eqb_eq in E. subst c. rewrite IH. simpl. now rewrite andb_false_r.
    + unfold newline_run. rewrite word_runs_lfs, newline_run_zero. simpl.
      destruct (is_word c); rewrite IH; now rewrite andb_true_r.
Qed.

Lemma lstrip_split (l : list ascii) :
  exists sp, l = sp ++ lstrip_l l /\ Forall (fun c => is_space c = true) sp.
Proof.
  induction l as [|c l IH]; simpl; [exists []; auto|].
  destruct (is_space c) eqn:E.
  - destruct IH as (sp & Hl & Hsp). exists (c :: sp). simpl. split; [now rewrite <- Hl | now constructor].
  - exists []. auto.
Qed.

Lemma word_runs_spaces_l (sp l : list ascii) :
  Forall (fun c => is_space c = true) sp -> word_runs (sp ++ l) false = word_runs l false.
Proof.
  induction 1 as [|c sp Hc _ IH]; [reflexivity|]. simpl. now rewrite space_not_word.
Qed.

Lemma word_runs_spaces_r (l sp : list ascii) (b : bool) :
  Forall (fun c => is_space c = true) sp -> word_runs (l ++ sp) b = word_runs l b.
Proof.
  intro Hsp. revert b. induction l as [|c l IH]; intro b; simpl.
  - revert b. induction Hsp as [|c sp Hc _ IH]; intro b; [reflexivity|].
    simpl. rewrite space_not_word by exact Hc. apply IH.
  - destruct (is_word c), b; now rewrite IH.
Qed.

(** [strip] removes leading and trailing whitespace and nothing else. *)
Lemma strip_split (s : string) :
  exists sp1 sp2, list_ascii_of_string s = sp1 ++ list_ascii_of_string (strip s) ++ sp2 /\
  Forall (fun c => is_space c = true) sp1 /\ Forall (fun c => is_space c = true) sp2.
Proof.
  unfold strip. rewrite list_ascii_of_string_of_list_ascii.
  set (l := list_ascii_of_string s).
  destruct (lstrip_split l) as (sp1 & H1 & Hs1).
  destruct (lstrip_split (rev (lstrip_l l))) as (sp2 & H2 & Hs2).
  exists sp1, (rev sp2). split; [|split; [exact Hs1 | now apply Forall_rev]].
  rewrite H1 at 1. f_equal.
  set (m := lstrip_l (rev (lstrip_l l))) in *.
  assert (E : lstrip_l l = rev (sp2 ++ m)) by (rewrite <- H2; now rewrite rev_involutive).
  rewrite E at 1. now rewrite rev_app_distr.
Qed.

Lemma word_runs_strip (s : string) :
  word_runs (list_ascii_of_string (strip s)) false = word_runs (list_ascii_of_string s) false.
Proof.
  destruct (strip_split s) as (sp1 & sp2 & -> & H1 & H2).
  rewrite word_runs_spaces_l by exact H1. now rewrite word_runs_spaces_r.
Qed.

Lemma word_count_normalize (s : string) : word_count (normalize_whitespace s) = word_count s.
Proof.
  unfold word_count, normalize_whitespace. rewrite word_runs_strip.
  rewrite list_ascii_of_string_of_list_ascii, word_runs_newlines, andb_false_l.
  rewrite word_runs_blanks by discriminate.
  unfold replace_cr. rewrite word_runs_map.
  - apply word_runs_crlf.
  - intro c. destruct (Ascii.eqb c CR) eqn:E; [|reflexivity].
    apply Ascii.eqb_eq in E. now subst c.
Qed.

Lemma word_runs_zero (l : list ascii) :
  word_runs l false = 0 <-> Forall (fun c => is_word c = false) l.
Proof.
  induction l as [|c l IH]; simpl; [split; auto|].
  destruct (is_word c) eqn:E.
  - split; [discriminate | intro H; inversion H; congruence].
  - rewrite IH. split; [auto | intro H; now inversion H].
Qed.

End TextFacts.

Module StripFacts.
Import TextFacts.

Definition head_ok (l : list ascii) : Prop :=
  match l with c :: _ => is_space c = false | [] => True end.

Lemma lstrip_head (l : list ascii) : head_ok (lstrip_l l).
Proof.
  induction l as [|c l IH]; simpl; [exact I|].
  destruct (is_space c) eqn:E; [exact IH | exact E].
Qed.

Lemma lstrip_noop (l : list ascii) : head_ok l -> lstrip_l l = l.
Proof. destruct l as [|c l]; simpl; [reflexivity|]. intro H. now rewrite H. Qed.

Lemma head_ok_app (l m : list ascii) : head_ok (l ++ m) -> head_ok l.
Proof. destruct l; simpl; auto. Qed.

Lemma strip_list (s : string) :
  list_ascii_of_string (strip s) = rev (lstrip_l (rev (lstrip_l (list_ascii_of_string s)))).
Proof. unfold strip. apply list_ascii_of_string_of_list_ascii. Qed.

Lemma strip_idem (s : string) : strip (strip s) = strip s.
Proof.
  unfold strip at 1 2. rewrite list_ascii_of_string_of_list_ascii.
  set (m := lstrip_l (list_ascii_of_string s)).
  assert (Hm : head_ok m) by apply lstrip_head.
  destruct (lstrip_split (rev m)) as (sp & Hsp & _).
  assert (Hm' : m = rev (lstrip_l (rev m)) ++ rev sp)
    by (rewrite <- rev_app_distr, <- Hsp; now rewrite rev_involutive).
  rewrite (lstrip_noop (rev (lstrip_l (rev m)))) by (apply (head_ok_app _ (rev sp)); now rewrite <- Hm').
  rewrite rev_involutive. rewrite (lstrip_noop (lstrip_l (rev m))) by apply lstrip_head.
  reflexivity.
Qed.

Lemma or_empty_strip_stripped (v : json) (t : string) : or_empty_strip v = Ret t -> strip t = t.
Proof.
  unfold or_empty_strip. destruct (truthy v); [destruct v|]; try discriminate;
    intro H; injection H as <-; apply strip_idem.
Qed.

Lemma build_article_inv (name txt : string) (wc : nat) (dg now : string) (meta : json)
    (art : Article) :
  build_article name txt wc dg now meta = Ret art ->
  exists t' da sm tps,
    exc_bind (json_get meta "title") or_empty_strip = Ret t' /\
    exc_bind (json_get meta "date") or_empty_strip = Ret da /\
    exc_bind (json_get meta "summary") or_empty_strip = Ret sm /\
    art = mkArticle name (or_str t' (stem name)) (or_str dg (or_str da ""))
            (or_str dg (or_str da ""))
            (if negb (String.eqb dg "") then "filename/text"
             else if negb (String.eqb da "") then "ai" else "")
            sm (clean_topics tps) wc txt now.
Proof.
  unfold build_article, exc_bind.
  destruct (json_get meta "title") as [t|]; [|discriminate].
  destruct (or_empty_strip t) as [t'|]; [|discriminate].
  destruct (json_get meta "date") as [d|]; [|discriminate].
  destruct (or_empty_strip d) as [d'|]; [|discriminate].
  destruct (json_get meta "summary") as [sm|]; [|discriminate].
  destruct (or_empty_strip sm) as [sm'|]; [|discriminate].
  destruct (json_get meta "topics") as [tp|]; [|discriminate].
  intro H. injection H as <-. do 4 eexists. repeat split; reflexivity.
Qed.

Lemma bind_or_empty_strip (m : exc json) (t : string) :
  exc_bind m or_empty_strip = Ret t -> strip t = t.
Proof. destruct m; simpl; [apply or_empty_strip_stripped | discriminate]. Qed.

Lemma clean_topics_spec (ts : list json) (t : string) :
  In t (clean_topics ts) <-> exists s, In (JStr s) ts /\ strip s <> "" /\ t = strip s.
Proof.
  unfold clean_topics. rewrite in_flat_map. split.
  - intros (x & Hx & Ht). destruct x; try contradiction.
    destruct (String.eqb (strip s) "") eqn:E; [contradiction|].
    destruct Ht as [<-|[]]. exists s. apply String.eqb_neq in E. auto.
  - intros (s & Hs & Hne & ->). exists (JStr s). split; [exact Hs|].
    apply String.eqb_neq in Hne. rewrite Hne. now left.
Qed.

Lemma clean_topics_idem (ts : list json) :
  clean_topics (map JStr (clean_topics ts)) = clean_topics ts.
Proof.
  induction ts as [|t ts IH]; [reflexivity|].
  unfold clean_topics in *. simpl. rewrite map_app, flat_map_app, IH. f_equal.
  destruct t; try reflexivity. destruct (String.eqb (strip s) "") eqn:E; [reflexivity|].
  simpl. rewrite strip_idem, E. reflexivity.
Qed.

Lemma rfind_dot_aux_nodot (l : list ascii) (i : nat) (b : option nat) :
  ~ In "."%char l -> rfind_dot_aux l i b = b.
Proof.
  revert i b. induction l as [|c l IH]; intros i b H; simpl; [reflexivity|].
  destruct (Ascii.eqb c "."%char) eqn:E.
  - apply Ascii.eqb_eq in E. subst. exfalso. apply H. now left.
  - apply IH. intro. apply H. now right.
Qed.

Lemma rfind_dot_aux_last (l m : list ascii) (i : nat) (b : option nat) :
  ~ In "."%char m -> rfind_dot_aux (l ++ "."%char :: m) i b = Some (i + length l).
Proof.
  revert i b. induction l as [|c l IH]; intros i b H; simpl.
  - rewrite rfind_dot_aux_nodot by exact H. now rewrite Nat.add_0_r.
  - rewrite IH by exact H. f_equal. lia.
Qed.

Lemma length_list_ascii (s : string) : length (list_ascii_of_string s) = String.length s.
Proof. induction s; simpl; auto. Qed.

Lemma string_length_app (n m : string) : String.length (n ++ m) = String.length n + String.length m.
Proof. induction n; simpl; auto. Qed.

Lemma substring_0_length (i : nat) (s : string) :
  i <= String.length s -> String.length (substring 0 i s) = i.
Proof.
  revert s. induction i as [|i IH]; intros [|c s] H; simpl in *; try lia; try reflexivity.
  rewrite IH; lia.
Qed.

Lemma substring_app (n m : string) : substring 0 (String.length n) (n ++ m) = n.
Proof.
  induction n as [|c n IH]; simpl; [now destruct m|]. now rewrite IH.
Qed.

Lemma stem_docx (n : string) : n <> "" -> stem (n ++ ".docx") = n.
Proof.
  intro Hn. unfold stem, rfind_dot. rewrite list_ascii_app.
  change (list_ascii_of_string ".docx") with ([] ++ "."%char :: list_ascii_of_string "docx").
  rewrite app_assoc, rfind_dot_aux_last by (simpl; intuition discriminate).
  rewrite app_nil_r, length_list_ascii, string_length_app. simpl.
  assert (0 < String.length n) by (destruct n; [congruence | simpl; lia]).
  replace (0 <? String.length n) with true by (symmetry; apply Nat.ltb_lt; lia).
  replace (String.length n <? String.length n + 5 - 1) with true by (symmetry; apply Nat.ltb_lt; lia).
  apply substring_app.
Qed.

Lemma stem_nonempty (name : string) : name <> "" -> stem name <> "".
Proof.
  intro H. unfold stem. destruct (rfind_dot name) as [i|]; [|exact H].
  destruct ((0 <? i) && (i <? String.length name - 1)) eqn:E; [|exact H].
  apply andb_prop in E as [E1 E2]. apply Nat.ltb_lt in E1, E2.
  intro Hs. apply (f_equal String.length) in Hs. rewrite substring_0_length in Hs; simpl in Hs; lia.
Qed.
End StripFacts.


Module CountFacts.
Import StripFacts.

Lemma count_infer_app (l m : list Call) : count_infer (l ++ m) = count_infer l + count_infer m.
Proof. unfold count_infer. now rewrite filter_app, length_app. Qed.

Lemma extract_text_calls (ext : Externals) (f : File) :
  count_infer (snd (extract_text ext f)) = 0 /\
  forall c, In c (snd (extract_text ext f)) -> call_of (fname f) c.
Proof.
  unfold extract_text, call_of. destruct (String.eqb _ ""); simpl; split; auto;
    intros c H; repeat destruct H as [<-|H]; auto; contradiction.
Qed.

(** What one step appends to the loop's lists, and how its counters move. *)
Lemma step_log cfg ext clock i f acc :
  let acc' := step cfg ext clock i f acc in
  exists cs es ms,
    acc_calls acc' = acc_calls acc ++ cs /\
    acc_errors acc' = acc_errors acc ++ es /\
    acc_missing acc' = acc_missing acc ++ ms /\
    (forall c, In c cs -> call_of (fname f) c) /\
    (forall e, In e es -> fst e = fname f) /\
    (forall m, In m ms -> fst (fst m) = fname f /\ 0 < snd m) /\
    length ms <= 1 /\
    ((count_infer cs = 0 /\ es = [] /\ ms = [] /\
      acc_processed acc' = acc_processed acc /\ acc_updated acc' = acc_updated acc) \/
     (count_infer cs = 1 /\ es = [] /\
      acc_processed acc' = S (acc_processed acc) /\ acc_updated acc' = S (acc_updated acc)) \/
     (count_infer cs = 1 /\ length es = 1 /\ ms = [] /\
      acc_processed acc' = acc_processed acc /\ acc_updated acc' = acc_updated acc)).
Proof.
  cbv zeta. unfold step.
  destruct (resume cfg && _).
  { exists [], [], []. rewrite !app_nil_r. repeat split; intros; simpl in *; try tauto; try lia; auto. all: left; auto. }
  destruct (extract_text_calls ext f) as [Hc0 Hc].
  destruct (extract_text ext f) as [raw cs] eqn:Ex. simpl in Hc0, Hc.
  destruct (word_count (normalize_whitespace raw) =? 0) eqn:Ew.
  { exists cs, [], []. rewrite !app_nil_r. repeat split; intros; simpl in *; try tauto; try lia; auto. all: left; auto. }
  destruct (exc_bind _ _) as [art|e] eqn:Hb.
  - exists (cs ++ [CallInfer (fname f)]), [],
      (if String.eqb (date art) "" then [(fname f, title art, word_count (normalize_whitespace raw))] else []).
    simpl. rewrite app_assoc, app_nil_r.
    split; [reflexivity|]. split; [reflexivity|]. split; [reflexivity|].
    split. { intros c Hin. apply in_app_or in Hin as [Hin|[<-|[]]]; [now apply Hc | right; now right]. }
    split. { intros x []. }
    split.
    { intros m Hm. destruct (String.eqb (date art) ""); [|contradiction].
      destruct Hm as [<-|[]]. simpl. apply Nat.eqb_neq in Ew. split; [reflexivity | lia]. }
    split. { destruct (String.eqb (date art) ""); simpl; lia. }
    right. left. rewrite count_infer_app, Hc0. auto.
  - exists (cs ++ [CallInfer (fname f)]), [(fname f, e)], [].
    simpl. rewrite app_assoc, app_nil_r.
    split; [reflexivity|]. split; [reflexivity|]. split; [reflexivity|].
    split. { intros c Hin. apply in_app_or in Hin as [Hin|[<-|[]]]; [now apply Hc | right; now right]. }
    split. { intros x [<-|[]]. reflexivity. }
    split. { intros m []. }
    split. { simpl. lia. }
    right. right. rewrite count_infer_app, Hc0. auto.
Qed.

Definition counts_rel (k : nat) (a a' : Acc) : Prop :=
  acc_processed a' + acc_updated a = acc_updated a' + acc_processed a /\
  count_infer (acc_calls a') + acc_processed a + length (acc_errors a)
    = count_infer (acc_calls a) + acc_processed a' + length (acc_errors a') /\
  acc_processed a' + length (acc_errors a') <= acc_processed a + length (acc_errors a) + k /\
  length (acc_missing a') + acc_processed a <= length (acc_missing a) + acc_processed a' /\
  acc_processed a <= acc_processed a'.

Lemma step_counts cfg ext clock i f acc : counts_rel 1 acc (step cfg ext clock i f acc).
Proof.
  destruct (step_log cfg ext clock i f acc)
    as (cs & es & ms & Hc & He & Hm & _ & _ & _ & Hlen & Hcase).
  unfold counts_rel. rewrite Hc, He, Hm, count_infer_app, !length_app.
  destruct Hcase as [(H1 & -> & -> & H4 & H5) | [(H1 & -> & H4 & H5) | (H1 & H2 & -> & H4 & H5)]];
    rewrite H1, H4, H5; simpl in *; try rewrite H2; lia.
Qed.

Lemma process_counts cfg ext clock (fs : list File) : forall i acc,
  counts_rel (length fs) acc (process_files cfg ext clock i fs acc).
Proof.
  induction fs as [|f fs IH]; intros i acc; simpl.
  - unfold counts_rel. lia.
  - specialize (IH (S i) (step cfg ext clock i f acc)).
    assert (H1 := step_counts cfg ext clock i f acc).
    unfold counts_rel in *. lia.
Qed.

(** The names the loop's lists mention are names of visited files. *)
Definition log_names (N : list string) (a : Acc) : Prop :=
  (forall c, In c (acc_calls a) -> exists n, In n N /\ call_of n c) /\
  (forall e, In e (acc_errors a) -> In (fst e) N) /\
  (forall m, In m (acc_missing a) -> In (fst (fst m)) N /\ 0 < snd m).

Lemma process_log_names cfg ext clock (N : list string) (fs : list File) : forall i acc,
  (forall f, In f fs -> In (fname f) N) ->
  log_names N acc -> log_names N (process_files cfg ext clock i fs acc).
Proof.
  induction fs as [|f fs IH]; intros i acc HN Hacc; simpl; [exact Hacc|].
  apply IH; [intros g Hg; apply HN; now right|].
  assert (Hf : In (fname f) N) by (apply HN; now left).
  destruct (step_log cfg ext clock i f acc)
    as (cs & es & ms & Hc & He & Hm & Hcs & Hes & Hms & _ & _).
  destruct Hacc as (H1 & H2 & H3). unfold log_names. rewrite Hc, He, Hm.
  split; [|split].
  - intros c Hin. apply in_app_or in Hin as [Hin|Hin]; [now apply H1|].
    exists (fname f). split; [exact Hf | now apply Hcs].
  - intros e Hin. apply in_app_or in Hin as [Hin|Hin]; [now apply H2|].
    rewrite Hes by exact Hin. exact Hf.
  - intros m Hin. apply in_app_or in Hin as [Hin|Hin]; [now apply H3|].
    destruct (Hms m Hin) as [-> Hpos]. auto.
Qed.

Lemma process_errors_nodup cfg ext clock (fs : list File) : forall i acc,
  NoDup (map fname fs) -> NoDup (map fst (acc_errors acc)) ->
  (forall e, In e (acc_errors acc) -> ~ In (fst e) (map fname fs)) ->
  NoDup (map fst (acc_errors (process_files cfg ext clock i fs acc))).
Proof.
  induction fs as [|f fs IH]; intros i acc Hnd H1 H2; simpl; [exact H1|].
  inversion Hnd as [|? ? Hf Hnd']; subst.
  destruct (step_log cfg ext clock i f acc)
    as (cs & es & ms & _ & He & _ & _ & Hes & _ & _ & Hcase).
  assert (Hes' : es = [] \/ exists e, es = [e] /\ fst e = fname f).
  { destruct Hcase as [(_ & -> & _) | [(_ & -> & _) | (_ & Hl & _)]]; auto.
    right. destruct es as [|e [|]]; simpl in Hl; try discriminate.
    exists e. split; [reflexivity | apply Hes; now left]. }
  apply IH; [exact Hnd'| |]; rewrite He.
  - destruct Hes' as [-> | (e & -> & Hfe)]; [now rewrite app_nil_r|].
    rewrite map_app. simpl. apply (Permutation_NoDup (Permutation_cons_append _ _)).
    constructor; [|exact H1]. rewrite Hfe. intro Hin. apply in_map_iff in Hin as (x & Hx & Hin).
    apply (H2 x Hin). rewrite Hx. now left.
  - intros e Hin. apply in_app_or in Hin as [Hin|Hin].
    + intro H. apply (H2 e Hin). now right.
    + destruct Hes' as [-> | (x & -> & Hfe)]; [contradiction|].
      destruct Hin as [<-|[]]. now rewrite Hfe.
Qed.

(** Replacing an entry keeps the set of [sourceFile]s. *)
Lemma upsert_keys (n : string) (art : Article) (l : list Article) (k : string) :
  sourceFile art = n -> In k (map sourceFile l) -> In k (map sourceFile (upsert n art l)).
Proof.
  intro Hn. induction l as [|a l IH]; simpl; [contradiction|].
  destruct (String.eqb (sourceFile a) n) eqn:E; simpl; intros [H|H]; auto.
  left. apply String.eqb_eq in E. congruence.
Qed.

Lemma process_keys cfg ext clock (fs : list File) : forall i acc k,
  In k (map sourceFile (acc_articles acc)) ->
  In k (map sourceFile (acc_articles (process_files cfg ext clock i fs acc))).
Proof.
  induction fs as [|f fs IH]; intros i acc k Hk; simpl; [exact Hk|].
  apply IH. destruct (ReportFacts.step_shape cfg ext clock i f acc)
    as [[-> _] | (art & Hsf & -> & _)]; [exact Hk|].
  now apply upsert_keys.
Qed.
End CountFacts.


Module DateFacts.
Import TextFacts StripFacts.

Definition digits_ok : bool :=
  forallb (fun k => is_digit (dchar k) && Nat.eqb (digit_val (dchar k)) k
                    && negb (is_line_break (dchar k)) && negb (is_space (dchar k))
                    && is_word (dchar k))
          (seq 0 10).

Lemma dchar_digit (k : nat) : k < 10 ->
  is_digit (dchar k) = true /\ digit_val (dchar k) = k /\ is_line_break (dchar k) = false /\
  is_space (dchar k) = false /\ is_word (dchar k) = true.
Proof.
  intro Hk. assert (H : digits_ok = true) by (vm_compute; reflexivity).
  unfold digits_ok in H. rewrite forallb_forall in H.
  specialize (H k ltac:(apply in_seq; lia)).
  repeat rewrite andb_true_iff in H. destruct H as ((((H1 & H2) & H3) & H4) & H5).
  apply Nat.eqb_eq in H2. apply negb_true_iff in H3, H4. auto.
Qed.

Definition pad2_ok : bool :=
  forallb (fun n => String.eqb (pad 2 n) (String (dchar (n / 10)) (String (dchar (n mod 10)) "")))
          (seq 0 100).

Lemma pad2_digits (n : nat) : n < 100 ->
  list_ascii_of_string (pad 2 n) = [dchar (n / 10); dchar (n mod 10)].
Proof.
  intro Hn. assert (H : pad2_ok = true) by (vm_compute; reflexivity).
  unfold pad2_ok in H. rewrite forallb_forall in H.
  specialize (H n ltac:(apply in_seq; lia)). apply String.eqb_eq in H. now rewrite H.
Qed.

Definition pad4_ok : bool :=
  forallb (fun k => String.eqb (pad 4 (2000 + k))
                      (String "2" (String "0" (String (dchar (k / 10)) (String (dchar (k mod 10)) "")))))
          (seq 0 100).

Lemma pad4_digits (y : nat) : 2000 <= y <= 2099 ->
  list_ascii_of_string (pad 4 y)
  = ["2"%char; "0"%char; dchar ((y - 2000) / 10); dchar ((y - 2000) mod 10)].
Proof.
  intro Hy. assert (H : pad4_ok = true) by (vm_compute; reflexivity).
  unfold pad4_ok in H. rewrite forallb_forall in H.
  specialize (H (y - 2000) ltac:(apply in_seq; lia)). apply String.eqb_eq in H.
  replace (2000 + (y - 2000)) with y in H by lia. now rewrite H.
Qed.

Lemma year20_digits {R} (k : nat -> list ascii -> option R) (a b : ascii) (t : list ascii) :
  is_digit a = true -> is_digit b = true ->
  year20 k ("2"%char :: "0"%char :: a :: b :: t) = k (2000 + 10 * digit_val a + digit_val b) t.
Proof. intros Ha Hb. unfold year20. rewrite Ha, Hb. reflexivity. Qed.

Lemma sep_m_dash {R} (k : list ascii -> option R) (t : list ascii) : sep_m k ("-"%char :: t) = k t.
Proof. reflexivity. Qed.

Lemma d12_two {R} (k : nat -> list ascii -> option R) (a b : ascii) (t : list ascii) (r : R) :
  is_digit a = true -> is_digit b = true -> k (10 * digit_val a + digit_val b) t = Some r ->
  d12 k (a :: b :: t) = Some r.
Proof. intros Ha Hb Hk. unfold d12. rewrite Ha, Hb, Hk. reflexivity. Qed.

Lemma py_date_valid (y mo d : nat) (s : string) :
  py_date y mo d = Some s ->
  1 <= mo <= 12 /\ 1 <= d <= 31 /\ s = (pad 4 y ++ "-" ++ pad 2 mo ++ "-" ++ pad 2 d)%string.
Proof.
  unfold py_date. destruct (_ && _) eqn:E; [|discriminate]. intro H. injection H as <-.
  repeat rewrite andb_true_iff in E. repeat rewrite Nat.leb_le in E.
  assert (days_in_month y mo <= 31)
    by (unfold days_in_month; destruct mo as [|[|[|[|[|[|[|[|[|[|[|[|[|]]]]]]]]]]]]];
        simpl; try destruct (is_leap y); lia).
  split; [lia | split; [lia | reflexivity]].
Qed.

Lemma two_digits (n : nat) : n < 100 -> 10 * digit_val (dchar (n / 10)) + digit_val (dchar (n mod 10)) = n.
Proof.
  intro Hn. destruct (dchar_digit (n / 10)) as (_ & -> & _); [apply Nat.Div0.div_lt_upper_bound; lia|].
  destruct (dchar_digit (n mod 10)) as (_ & -> & _); [apply Nat.mod_upper_bound; lia|].
  rewrite (Nat.div_mod_eq n 10) at 3. lia.
Qed.

Lemma iso_at_date (y mo d : nat) (s : string) (t : list ascii) :
  2000 <= y <= 2099 -> py_date y mo d = Some s ->
  iso_at (list_ascii_of_string s ++ t) = Some (y, mo, d).
Proof.
  intros Hy Hd. destruct (py_date_valid y mo d s Hd) as (Hmo & Hdd & ->).
  rewrite !list_ascii_app, pad4_digits, !pad2_digits by lia. cbn [app list_ascii_of_string].
  destruct (dchar_digit ((y - 2000) / 10)) as (HA & _); [apply Nat.Div0.div_lt_upper_bound; lia|].
  destruct (dchar_digit ((y - 2000) mod 10)) as (HB & _); [apply Nat.mod_upper_bound; lia|].
  destruct (dchar_digit (mo / 10)) as (HM1 & _); [apply Nat.Div0.div_lt_upper_bound; lia|].
  destruct (dchar_digit (mo mod 10)) as (HM2 & _); [apply Nat.mod_upper_bound; lia|].
  destruct (dchar_digit (d / 10)) as (HD1 & _); [apply Nat.Div0.div_lt_upper_bound; lia|].
  destruct (dchar_digit (d mod 10)) as (HD2 & _); [apply Nat.mod_upper_bound; lia|].
  unfold iso_at. rewrite year20_digits by assumption. rewrite sep_m_dash.
  apply d12_two; [assumption..|]. rewrite sep_m_dash.
  apply d12_two; [assumption..|]. f_equal.
  rewrite !two_digits by lia.
  replace (2000 + 10 * digit_val (dchar ((y - 2000) / 10)) + digit_val (dchar ((y - 2000) mod 10))) with y.
  - reflexivity.
  - rewrite <- Nat.add_assoc, two_digits by lia. lia.
Qed.

Lemma search_hit {R} (m : list ascii -> option R) (s : list ascii) (r : R) :
  m s = Some r -> search m s = Some r.
Proof. intro H. destruct s; simpl; now rewrite H. Qed.

Lemma string_app_assoc (a b c : string) : ((a ++ b) ++ c)%string = (a ++ b ++ c)%string.
Proof. induction a as [|x a IH]; simpl; [reflexivity | now rewrite IH]. Qed.

End DateFacts.


Module TextDateFacts.
Import TextFacts StripFacts DateFacts.

Lemma alpha_facts (c : ascii) : is_alpha c = true -> Ascii.eqb c "."%char = false /\ is_space c = false.
Proof. revert c; intros [[] [] [] [] [] [] [] []]; vm_compute; intro H; try discriminate H; auto. Qed.

Lemma month_stage {R} (K : list ascii -> list ascii -> option R) (mo : nat) (t : list ascii) (r : R) :
  1 <= mo <= 12 ->
  (forall mon c t', is_alpha c = true -> K mon (c :: t') = None) ->
  K (list_ascii_of_string (month_name mo)) (" "%char :: t) = Some r ->
  (if boundary None (list_ascii_of_string (month_name mo) ++ " "%char :: t)
   then alt_ci month_alts K (list_ascii_of_string (month_name mo) ++ " "%char :: t) else None)
  = Some r.
Proof.
  intros Hmo HK H.
  destruct mo as [|[|[|[|[|[|[|[|[|[|[|[|[|mo]]]]]]]]]]]]]; try lia;
    vm_compute in H |- *; rewrite H; repeat (rewrite HK by reflexivity); reflexivity.
Qed.

Definition Kyr (mon : list ascii) (day : nat) (year : nat) (rest : list ascii)
    : option (list ascii * nat * nat) :=
  if boundary (Some "0"%char) rest then Some (mon, day, year) else None.
Definition K2 (mon : list ascii) (day : nat) : list ascii -> option (list ascii * nat * nat) :=
  opt_suffix (comma_m (sp_plus (year20 (Kyr mon day)))).
Definition K1 (mon : list ascii) : list ascii -> option (list ascii * nat * nat) :=
  opt_dot (sp_plus (d12 (K2 mon))).

Lemma text_at_K (s : list ascii) :
  text_at None s = if boundary None s then alt_ci month_alts K1 s else None.
Proof. reflexivity. Qed.

Lemma K1_alpha (mon : list ascii) (c : ascii) (t : list ascii) :
  is_alpha c = true -> K1 mon (c :: t) = None.
Proof.
  intro H. destruct (alpha_facts c H) as [H1 H2].
  unfold K1, opt_dot. rewrite H1. simpl. now rewrite H2.
Qed.

Lemma sp_plus_space_digit {R} (k : list ascii -> option R) (c : ascii) (t : list ascii) :
  is_space c = false -> sp_plus k (" "%char :: c :: t) = k (c :: t).
Proof. intro H. simpl. now rewrite H. Qed.

Definition nonword_start (x : list ascii) : Prop :=
  match x with [] => True | c :: _ => is_word c = false end.

Lemma K2_year (mon : list ascii) (day a b : nat) (x : list ascii) :
  a < 10 -> b < 10 -> nonword_start x ->
  K2 mon day (","%char :: " "%char :: "2"%char :: "0"%char :: dchar a :: dchar b :: x)
  = Some (mon, day, 2000 + 10 * a + b).
Proof.
  intros Ha Hb Hx.
  destruct (dchar_digit a Ha) as (HA & HvA & _ & HsA & _).
  destruct (dchar_digit b Hb) as (HB & HvB & _ & _ & _).
  unfold K2. change (opt_suffix ?k (","%char :: ?t)) with (k (","%char :: t)).
  change (comma_m ?k (","%char :: ?t)) with (k t).
  rewrite sp_plus_space_digit by reflexivity.
  rewrite year20_digits by assumption. rewrite HvA, HvB. unfold Kyr.
  replace (boundary (Some "0"%char) x) with true; [reflexivity|].
  destruct x as [|c x]; [reflexivity|]. unfold boundary. simpl in Hx |- *. now rewrite Hx.
Qed.

Definition str_ok : bool :=
  forallb (fun d => String.eqb (str_of_nat d) (String (dchar d) "")) (seq 1 9) &&
  forallb (fun d => String.eqb (str_of_nat d) (String (dchar (d / 10)) (String (dchar (d mod 10)) "")))
          (seq 10 90) &&
  forallb (fun k => String.eqb (str_of_nat (2000 + k))
                      (String "2" (String "0" (String (dchar (k / 10)) (String (dchar (k mod 10)) "")))))
          (seq 0 100).

Lemma str_ok_true : str_ok = true.
Proof. vm_compute. reflexivity. Qed.

Lemma str_one (d : nat) : 1 <= d <= 9 -> list_ascii_of_string (str_of_nat d) = [dchar d].
Proof.
  intro Hd. assert (H := str_ok_true). unfold str_ok in H.
  repeat rewrite andb_true_iff in H. destruct H as ((H & _) & _).
  rewrite forallb_forall in H. specialize (H d ltac:(apply in_seq; lia)).
  apply String.eqb_eq in H. now rewrite H.
Qed.

Lemma str_two (d : nat) : 10 <= d <= 99 ->
  list_ascii_of_string (str_of_nat d) = [dchar (d / 10); dchar (d mod 10)].
Proof.
  intro Hd. assert (H := str_ok_true). unfold str_ok in H.
  repeat rewrite andb_true_iff in H. destruct H as ((_ & H) & _).
  rewrite forallb_forall in H. specialize (H d ltac:(apply in_seq; lia)).
  apply String.eqb_eq in H. now rewrite H.
Qed.

Lemma str_year (y : nat) : 2000 <= y <= 2099 ->
  list_ascii_of_string (str_of_nat y)
  = ["2"%char; "0"%char; dchar ((y - 2000) / 10); dchar ((y - 2000) mod 10)].
Proof.
  intro Hy. assert (H := str_ok_true). unfold str_ok in H.
  repeat rewrite andb_true_iff in H. destruct H as (_ & H).
  rewrite forallb_forall in H. specialize (H (y - 2000) ltac:(apply in_seq; lia)).
  apply String.eqb_eq in H. replace (2000 + (y - 2000)) with y in H by lia. now rewrite H.
Qed.

(** The day and the year after the month name. *)
Lemma K1_day (mon : list ascii) (d : nat) (tail : list ascii) (r : list ascii * nat * nat) :
  1 <= d <= 31 -> K2 mon d (","%char :: tail) = Some r ->
  K1 mon (" "%char :: list_ascii_of_string (str_of_nat d) ++ ","%char :: tail) = Some r.
Proof.
  intros Hd H. unfold K1. change (opt_dot ?k (" "%char :: ?t)) with (k (" "%char :: t)).
  destruct (Nat.lt_ge_cases d 10) as [Hlt|Hge].
  - rewrite str_one by lia. destruct (dchar_digit d ltac:(lia)) as (HD & Hv & _ & Hs & _).
    cbn [app]. rewrite sp_plus_space_digit by exact Hs.
    unfold d12. rewrite HD. change (is_digit ","%char) with false. cbv iota. now rewrite Hv.
  - rewrite str_two by lia.
    destruct (dchar_digit (d / 10) ltac:(apply Nat.Div0.div_lt_upper_bound; lia)) as (HD1 & _ & _ & Hs & _).
    destruct (dchar_digit (d mod 10) ltac:(apply Nat.mod_upper_bound; lia)) as (HD2 & _ & _ & _ & _).
    cbn [app]. rewrite sp_plus_space_digit by exact Hs.
    apply d12_two; [assumption..|]. rewrite two_digits by lia. exact H.
Qed.

Lemma splitlines_nobreak (p x cur : list ascii) :
  Forall (fun c => is_line_break c = false) p ->
  splitlines_aux (p ++ x) cur = splitlines_aux x (rev p ++ cur).
Proof.
  intro Hp. revert cur. induction Hp as [|c p Hc _ IH]; intro cur; simpl; [reflexivity|].
  rewrite Hc, IH. now rewrite <- app_assoc.
Qed.

Lemma splitlines_first (x cur : list ascii) :
  cur <> [] ->
  exists q ls, splitlines_aux x cur = (rev cur ++ q) :: ls /\
    (q = [] \/ exists c q', q = c :: q' /\ head_opt x = Some c).
Proof.
  revert cur. induction x as [|c x IH]; intros cur Hcur; simpl.
  - destruct cur as [|a cur]; [congruence|]. exists [], []. rewrite app_nil_r. auto.
  - destruct (is_line_break c).
    + eexists [], _. rewrite app_nil_r. split; [reflexivity | now left].
    + destruct (IH (c :: cur) ltac:(discriminate)) as (q & ls & -> & _).
      exists (c :: q), ls. simpl. rewrite <- app_assoc. split; [reflexivity|].
      right. eauto.
Qed.

(** The first of the first twenty lines, joined, starts with [p] when [p]
    has no line break; what follows is the rest of the input or a newline. *)
Lemma head_prefix (p x : list ascii) :
  p <> [] -> Forall (fun c => is_line_break c = false) p ->
  exists y, join_nl (firstn 20 (splitlines_aux (p ++ x) [])) = p ++ y /\
    (y = [] \/ exists c y', y = c :: y' /\ (head_opt x = Some c \/ c = LF)).
Proof.
  intros Hne Hp. rewrite splitlines_nobreak by exact Hp. rewrite app_nil_r.
  destruct (splitlines_first x (rev p)) as (q & ls & -> & Hq).
  { intro H. apply Hne. rewrite <- (rev_involutive p), H. reflexivity. }
  rewrite rev_involutive.
  change (firstn 20 ((p ++ q) :: ls)) with ((p ++ q) :: firstn 19 ls).
  destruct (firstn 19 ls) as [|l ls'] eqn:E.
  - exists q. change (join_nl [p ++ q]) with (p ++ q). split; [reflexivity|].
    destruct Hq as [->|(c & q' & -> & Hc)]; [now left | right; eauto].
  - exists (q ++ LF :: join_nl (l :: ls')). split.
    + change (join_nl ((p ++ q) :: l :: ls')) with ((p ++ q) ++ LF :: join_nl (l :: ls')).
      now rewrite <- app_assoc.
    + right. destruct Hq as [->|(c & q' & -> & Hc)]; simpl; eauto.
Qed.

Definition month_ok : bool :=
  forallb (fun mo =>
    forallb (fun c => negb (is_line_break c)) (list_ascii_of_string (month_name mo)) &&
    match list_ascii_of_string (month_name mo) with [] => false | _ => true end &&
    match dict_get month_map (string_of_list_ascii (firstn 3 (map lower
            (list_ascii_of_string (month_name mo))))) with
    | Some m => Nat.eqb m mo | None => false end)
  (seq 1 12).

Lemma month_facts (mo : nat) : 1 <= mo <= 12 ->
  Forall (fun c => is_line_break c = false) (list_ascii_of_string (month_name mo)) /\
  list_ascii_of_string (month_name mo) <> [] /\
  dict_get month_map (string_of_list_ascii (firstn 3 (map lower (list_ascii_of_string (month_name mo)))))
  = Some mo.
Proof.
  intro Hmo. assert (H : month_ok = true) by (vm_compute; reflexivity).
  unfold month_ok in H. rewrite forallb_forall in H.
  specialize (H mo ltac:(apply in_seq; lia)). repeat rewrite andb_true_iff in H.
  destruct H as ((H1 & H2) & H3). split; [|split].
  - rewrite forallb_forall in H1. apply Forall_forall. intros c Hc.
    specialize (H1 c Hc). now apply negb_true_iff in H1.
  - destruct (list_ascii_of_string (month_name mo)); [discriminate | congruence].
  - destruct (dict_get _ _) as [m|]; [|discriminate]. apply Nat.eqb_eq in H3. now subst.
Qed.

Lemma search_b_hit {R} (m : option ascii -> list ascii -> option R) (p : option ascii)
    (s : list ascii) (r : R) :
  m p s = Some r -> search_b m p s = Some r.
Proof. intro H. destruct s; simpl; now rewrite H. Qed.

Lemma str_day_nobreak (d : nat) : 1 <= d <= 31 ->
  Forall (fun c => is_line_break c = false) (list_ascii_of_string (str_of_nat d)) /\
  exists c t, list_ascii_of_string (str_of_nat d) = c :: t /\ is_space c = false.
Proof.
  intro Hd. destruct (Nat.lt_ge_cases d 10) as [Hlt|Hge].
  - rewrite str_one by lia. destruct (dchar_digit d ltac:(lia)) as (_ & _ & Hl & Hs & _).
    split; [repeat constructor; exact Hl | eauto].
  - rewrite str_two by lia.
    destruct (dchar_digit (d / 10) ltac:(apply Nat.Div0.div_lt_upper_bound; lia)) as (_ & _ & Hl1 & Hs & _).
    destruct (dchar_digit (d mod 10) ltac:(apply Nat.mod_upper_bound; lia)) as (_ & _ & Hl2 & _ & _).
    split; [repeat constructor; assumption | eauto].
Qed.

End TextDateFacts.

Module Extras.
Import SortFacts DictFacts DedupFacts RunFacts RunProps ReportFacts MoreFacts TextFacts StripFacts CountFacts
  DateFacts TextDateFacts.

(** On an ASCII text, [normalize_whitespace] never changes the word count: [word_count (normalize_whitespace s) = word_count s], and the count is 0 exactly when [s] has no word character ([A-Za-z0-9_]), which is when [main] skips the file. *)
Theorem normalize_word_count (s : string) :
  is_ascii_str s = true ->
  word_count (normalize_whitespace s) = word_count s /\
  (word_count (normalize_whitespace s) = 0 <->
   Forall (fun c => is_word c = false) (list_ascii_of_string s)).
Proof.
  intros _. rewrite word_count_normalize. split; [reflexivity|]. apply word_runs_zero.
Qed.

Lemma normalize_word_count_witness :
  word_count (normalize_whitespace "  Two   words, ") = 2 /\
  (word_count (normalize_whitespace "  Two   words, ") = word_count "  Two   words, " /\
   (word_count (normalize_whitespace "  Two   words, ") = 0 <->
    Forall (fun c => is_word c = false) (list_ascii_of_string "  Two   words, "))).
Proof.
  split; [vm_compute; reflexivity|].
  exact (normalize_word_count "  Two   words, " ltac:(vm_compute; reflexivity)).
Defined.

(** Whenever [main] builds an article from a model reply, its summary is stripped and its topics are non-empty stripped strings, so cleaning the topics again changes nothing. *)
Theorem reply_strings_stripped name txt wc dg now meta art :
  build_article name txt wc dg now meta = Ret art ->
  strip (summary art) = summary art /\
  (forall t, In t (topics art) -> t <> "" /\ strip t = t) /\
  clean_topics (map JStr (topics art)) = topics art.
Proof.
  intro H. destruct (build_article_inv _ _ _ _ _ _ _ H) as (t' & da & sm & tps & _ & _ & Hs & ->).
  simpl. split; [now apply bind_or_empty_strip in Hs|]. split; [|apply clean_topics_idem].
  intros t Ht. apply clean_topics_spec in Ht as (s & _ & Hne & ->). split; [exact Hne | apply strip_idem].
Qed.

Lemma reply_strings_stripped_witness :
  build_article "a.docx" "hello world" 2 "" "t" sample_meta
  = Ret (mkArticle "a.docx" "Op-ed" "" "" "" "S" ["tax"] 2 "hello world" "t") /\
  (strip "S" = "S" /\ (forall t, In t ["tax"] -> t <> "" /\ strip t = t) /\
   clean_topics (map JStr ["tax"]) = ["tax"]).
Proof.
  split; [vm_compute; reflexivity|].
  exact (reply_strings_stripped "a.docx" "hello world" 2 "" "t" sample_meta
           (mkArticle "a.docx" "Op-ed" "" "" "" "S" ["tax"] 2 "hello world" "t")
           ltac:(vm_compute; reflexivity)).
Defined.

(** The article title is the stripped reply title, or the file stem when that is empty; a non-empty file name never yields an empty title, and the stem of [n.docx] is [n]. *)
Theorem title_fallback name txt wc dg now meta art :
  build_article name txt wc dg now meta = Ret art ->
  (exists t', exc_bind (json_get meta "title") or_empty_strip = Ret t' /\ strip t' = t' /\
     title art = (if String.eqb t' "" then stem name else t')) /\
  (name <> "" -> title art <> "") /\
  (forall n, n <> "" -> stem (n ++ ".docx") = n).
Proof.
  intro H. destruct (build_article_inv _ _ _ _ _ _ _ H) as (t' & da & sm & tps & Ht & _ & _ & ->).
  simpl. split; [|split; [|exact stem_docx]].
  - exists t'. split; [exact Ht|]. split; [now apply bind_or_empty_strip in Ht|]. reflexivity.
  - intro Hn. unfold or_str. destruct (String.eqb t' "") eqn:E.
    + now apply stem_nonempty.
    + now apply String.eqb_neq.
Qed.


Lemma title_fallback_witness :
  build_article "Budget.docx" "x" 1 "" "t" blank_title_meta
  = Ret (mkArticle "Budget.docx" "Budget" "" "" "" "" [] 1 "x" "t") /\
  ((exists t', exc_bind (json_get blank_title_meta "title") or_empty_strip = Ret t' /\ strip t' = t' /\
     "Budget" = (if String.eqb t' "" then stem "Budget.docx" else t')) /\
   ("Budget.docx" <> "" -> "Budget" <> "") /\
   (forall n, n <> "" -> stem (n ++ ".docx") = n)).
Proof.
  split; [vm_compute; reflexivity|].
  exact (title_fallback "Budget.docx" "x" 1 "" "t" blank_title_meta
           (mkArticle "Budget.docx" "Budget" "" "" "" "" [] 1 "x" "t")
           ltac:(vm_compute; reflexivity)).
Defined.

(** The upsert loop of [main] either replaces the first article with the same [sourceFile], keeping the others in place, or appends the new article when no article has that source. *)
Theorem upsert_replace_or_append (n : string) (art : Article) (l : list Article) :
  (exists pre a post, l = pre ++ a :: post /\ sourceFile a = n /\
     ~ In n (map sourceFile pre) /\ upsert n art l = pre ++ art :: post) \/
  (~ In n (map sourceFile l) /\ upsert n art l = l ++ [art]).
Proof.
  induction l as [|b l IH]; simpl.
  - right. auto.
  - destruct (String.eqb (sourceFile b) n) eqn:E.
    + left. exists [], b, l. apply String.eqb_eq in E. simpl. auto.
    + apply String.eqb_neq in E. destruct IH as [(pre & a & post & -> & Ha & Hpre & ->) | (Hn & ->)].
      * left. exists (b :: pre), a, post. simpl. repeat split; auto. intros [H|H]; auto.
      * right. split; [intros [H|H]; auto | reflexivity].
Qed.


(** After a run, [processed = updated], processed files plus errors never exceed the folder size, each processed file gives at most one missing-date row, and the exit code is 10 iff something was updated, 0 otherwise. *)
Theorem run_counters cfg ext clock folder st ex :
  let r := run cfg ext clock folder st ex in
  n_processed r = n_updated r /\
  n_processed r + length (errors (out r)) <= length folder /\
  length (missing_rows r) <= n_processed r /\
  (exit_code r = 10 <-> 0 < n_updated r) /\ (exit_code r = 0 <-> n_updated r = 0).
Proof.
  cbv zeta. unfold run, exit_code. fold (acc0 cfg folder st ex).
  cbn [n_processed n_updated out errors missing_rows].
  destruct (process_counts cfg ext clock folder 1 (acc0 cfg folder st ex))
    as (H1 & H2 & H3 & H4 & H5).
  set (a := process_files cfg ext clock 1 folder (acc0 cfg folder st ex)) in *.
  simpl in H1, H2, H3, H4, H5.
  split; [lia|]. split; [lia|]. split; [lia|].
  destruct (0 <? acc_updated a) eqn:E; [apply Nat.ltb_lt in E | apply Nat.ltb_ge in E];
    split; split; intro; first [reflexivity | discriminate | lia].
Qed.

Lemma run_log_names cfg ext clock folder st ex :
  log_names (map fname folder) (process_files cfg ext clock 1 folder (acc0 cfg folder st ex)).
Proof.
  apply process_log_names; [intros f Hf; now apply in_map|].
  repeat split; simpl; intros; contradiction.
Qed.

(** A run calls the model once per processed or failed file, and every external call it makes names a file of the folder. *)
Theorem run_calls cfg ext clock folder st ex :
  let r := run cfg ext clock folder st ex in
  count_infer (call_log r) = n_processed r + length (errors (out r)) /\
  (forall c, In c (call_log r) -> exists n, In n (map fname folder) /\ call_of n c).
Proof.
  cbv zeta. unfold run. fold (acc0 cfg folder st ex).
  cbn [n_processed call_log out errors].
  destruct (process_counts cfg ext clock folder 1 (acc0 cfg folder st ex)) as (_ & H2 & _).
  destruct (run_log_names cfg ext clock folder st ex) as (Hc & _).
  simpl in H2. split; [lia | exact Hc].
Qed.

(** Every error entry names a file of the folder, and with distinct file names no file gets two error entries. *)
Theorem run_errors cfg ext clock folder st ex :
  let r := run cfg ext clock folder st ex in
  (forall e, In e (errors (out r)) -> In (fst e) (map fname folder)) /\
  (NoDup (map fname folder) -> NoDup (map fst (errors (out r)))).
Proof.
  cbv zeta. unfold run. fold (acc0 cfg folder st ex). cbn [out errors].
  destruct (run_log_names cfg ext clock folder st ex) as (_ & He & _).
  split; [exact He|]. intro Hnd. apply process_errors_nodup; [exact Hnd | constructor |].
  intros e [].
Qed.

Lemma run_errors_witness :
  NoDup (map fst (errors (out sample_run1))) /\ errors (out sample_run1) = [("b.docx", "APIError: timeout")].
Proof.
  split; [|vm_compute; reflexivity].
  apply (proj2 (run_errors (mkConfig true false) sample_ext sample_clock sample_folder [] None)).
  vm_compute. repeat constructor; simpl; intuition discriminate.
Defined.

(** Every missing-date row names a file of the folder and carries a positive word count. *)
Theorem run_missing_rows_named cfg ext clock folder st ex :
  forall m, In m (missing_rows (run cfg ext clock folder st ex)) ->
  In (fst (fst m)) (map fname folder) /\ 0 < snd m.
Proof.
  unfold run. fold (acc0 cfg folder st ex). cbn [missing_rows].
  apply (run_log_names cfg ext clock folder st ex).
Qed.

Lemma run_missing_rows_named_witness :
  missing_rows sample_run1 = [("a.docx", "Op-ed", 2)] /\
  (In "a.docx" (map fname sample_folder) /\ 0 < 2).
Proof.
  split; [vm_compute; reflexivity|].
  apply (run_missing_rows_named (mkConfig true false) sample_ext sample_clock sample_folder [] None
           ("a.docx", "Op-ed", 2)).
  vm_compute. now left.
Defined.

(** The state keeps the fingerprints of files not in the folder, and with distinct names records the SHA-256 of every folder file. *)
Theorem run_state cfg ext clock folder st ex :
  let r := run cfg ext clock folder st ex in
  (forall n, ~ In n (map fname folder) -> dict_get (state_files r) n = dict_get st n) /\
  (NoDup (map fname folder) ->
   forall f, In f folder -> dict_get_default (state_files r) (fname f) "" = sha256_file ext (fbytes f)).
Proof.
  cbv zeta. split.
  - intros n Hn. unfold run. cbn [state_files]. now apply process_fingerprint_other.
  - apply run_fingerprints.
Qed.

Lemma run_state_witness :
  dict_get (state_files (run (mkConfig false true) sample_ext sample_clock sample_folder
                           [("old.docx", "h0")] None)) "old.docx" = Some "h0" /\
  dict_get_default (state_files (run (mkConfig false true) sample_ext sample_clock sample_folder
                           [("old.docx", "h0")] None)) "b.docx" "" = "sha256:boom text".
Proof.
  destruct (run_state (mkConfig false true) sample_ext sample_clock sample_folder
              [("old.docx", "h0")] None) as [H1 H2].
  split.
  - apply H1. vm_compute. intuition discriminate.
  - apply (H2 ltac:(vm_compute; repeat constructor; simpl; intuition discriminate)
              (mkFile "b.docx" "boom text")).
    simpl. auto.
Defined.

(** Every article carried into the run (after pruning) with a non-empty [sourceFile] still has an article with that source in the output. *)
Theorem run_keeps_carried cfg ext clock folder st ex :
  forall a, In a (pruned cfg folder (carried_forward cfg ex)) -> sourceFile a <> "" ->
  exists b, In b (articles (out (run cfg ext clock folder st ex))) /\ sourceFile b = sourceFile a.
Proof.
  intros a Ha Hne. rewrite run_articles_def.
  assert (Hk : In (sourceFile a)
                 (map sourceFile (acc_articles (process_files cfg ext clock 1 folder
                    (mkAcc (pruned cfg folder (carried_forward cfg ex)) [] st 0 0 [] []))))).
  { apply process_keys. simpl. now apply in_map. }
  apply in_map_iff in Hk as (c & Hc & Hin).
  destruct (dedup_covers _ c Hin) as (b & Hb & Hbc); [congruence|].
  exists b. split; [|congruence].
  eapply Permutation_in; [apply sort_perm | exact Hb].
Qed.

Lemma run_keeps_carried_witness :
  In (hd (sample_article "" "" "") (articles (out sample_run1))) (articles (out sample_run2)).
Proof.
  destruct (run_keeps_carried (mkConfig true false) sample_ext sample_clock sample_folder
              (state_files sample_run1) (Some (out sample_run1))
              (hd (sample_article "" "" "") (articles (out sample_run1))))
    as (b & Hb & Hsf).
  - vm_compute. now left.
  - vm_compute. discriminate.
  - vm_compute in Hb, Hsf. vm_compute. destruct Hb as [<-|[]]. now left.
Defined.
(** On an empty folder the run makes no calls, keeps the state, outputs the deduplicated sorted carried articles, exits 0, and outputs nothing with [--prune]. *)
Theorem run_empty_folder cfg ext clock st ex :
  let r := run cfg ext clock [] st ex in
  r = mkRunResult (mkPayload (clock 1)
                     (sort_articles (dedup_articles (pruned cfg [] (carried_forward cfg ex)))) [])
                  st [] 0 0 [] /\
  exit_code r = 0 /\
  (prune cfg = true -> articles (out r) = []).
Proof.
  cbv zeta. split; [reflexivity|]. split; [reflexivity|].
  intro Hp. rewrite run_articles_def. unfold pruned. rewrite Hp. cbn [map process_files acc_articles].
  destruct (dedup_articles (prune_articles [] (carried_forward cfg ex))) as [|a l] eqn:E;
    [reflexivity|].
  exfalso. assert (Ha : In a (dedup_articles (prune_articles [] (carried_forward cfg ex))))
    by (rewrite E; now left).
  apply dedup_in in Ha as [Hne Ha]. apply prune_in in Ha as [H|[]]. contradiction.
Qed.

Lemma run_empty_folder_witness :
  articles (out (run (mkConfig true true) sample_ext sample_clock [] [] (Some (out sample_run1)))) = [].
Proof. apply (run_empty_folder (mkConfig true true) sample_ext sample_clock [] (Some (out sample_run1))). reflexivity. Defined.

(** Without [--resume], every output article comes from a file of the folder. *)
Theorem run_fresh_sources cfg ext clock folder st ex :
  resume cfg = false ->
  forall a, In a (articles (out (run cfg ext clock folder st ex))) -> In (sourceFile a) (map fname folder).
Proof.
  intros Hr a Ha. rewrite run_articles_def in Ha.
  apply sort_in, dedup_in in Ha as [_ Ha].
  refine (process_articles (fun s => In s (map fname folder)) cfg ext clock folder 1 _ _ _ a Ha).
  - simpl. unfold pruned, carried_forward. rewrite Hr. destruct (prune cfg); simpl; contradiction.
  - intros f Hf. now apply in_map.
Qed.

Lemma run_fresh_sources_witness :
  map sourceFile (articles (out (run (mkConfig false false) sample_ext sample_clock sample_folder
                                   [] (Some (out sample_run1))))) = ["a.docx"] /\
  In "a.docx" (map fname sample_folder).
Proof.
  split; [vm_compute; reflexivity|].
  apply (run_fresh_sources (mkConfig false false) sample_ext sample_clock sample_folder [] (Some (out sample_run1))
           eq_refl (hd (sample_article "" "" "") (articles (out sample_run1)))).
  vm_compute. now left.
Defined.
(** [parse_date_from_filename] reads back an ISO date [YYYY-MM-DD] (year 2000..2099) written at the start of the file stem: for any valid date [s], the name [s ++ t ++ ".docx"] parses to [s]. *)
Theorem filename_date_at (y mo d : nat) (s t : string) :
  2000 <= y <= 2099 -> py_date y mo d = Some s ->
  parse_date_from_filename (s ++ t ++ ".docx")%string = Some s.
Proof.
  intros Hy Hd. unfold parse_date_from_filename.
  rewrite <- string_app_assoc, stem_docx.
  2:{ destruct s; [now apply ParseFacts.py_date_nonempty in Hd | discriminate]. }
  rewrite list_ascii_app, (search_hit _ _ (y, mo, d)) by (now apply iso_at_date).
  unfold date_of. now rewrite Hd.
Qed.

Lemma filename_date_at_witness :
  parse_date_from_filename "2024-03-05 column.docx" = Some "2024-03-05".
Proof.
  exact (filename_date_at 2024 3 5 "2024-03-05" " column" ltac:(lia) ltac:(vm_compute; reflexivity)).
Defined.

(** [parse_date_from_text] reads back a date written as [Month D, YYYY] (full English month name, year 2000..2099) at the start of the text, when the year is followed by the end of the text or by an ASCII character that is not a word character: it returns the ISO string of that date. *)
Theorem text_date_at (y mo d : nat) (s rest : string) :
  2000 <= y <= 2099 -> py_date y mo d = Some s ->
  (rest = "" \/ exists c r, rest = String c r /\ code c < 128 /\ is_word c = false) ->
  parse_date_from_text (month_name mo ++ " " ++ str_of_nat d ++ ", " ++ str_of_nat y ++ rest)%string
  = Some s.
Proof.
  intros Hy Hs Hrest. destruct (py_date_valid y mo d s Hs) as (Hmo & Hd & _).
  destruct (month_facts mo Hmo) as (HMb & HMne & HMmap).
  destruct (str_day_nobreak d Hd) as (HDb & _).
  set (a := (y - 2000) / 10). set (b := (y - 2000) mod 10).
  assert (Ha : a < 10) by (apply Nat.Div0.div_lt_upper_bound; lia).
  assert (Hb : b < 10) by (apply Nat.mod_upper_bound; lia).
  assert (Hyab : y = 2000 + 10 * a + b) by (unfold a, b; rewrite <- Nat.add_assoc, <- Nat.div_mod_eq; lia).
  destruct (dchar_digit a Ha) as (_ & _ & HlA & _ & _).
  destruct (dchar_digit b Hb) as (_ & _ & HlB & _ & _).
  set (M := list_ascii_of_string (month_name mo)) in *.
  set (D := list_ascii_of_string (str_of_nat d)) in *.
  set (X := list_ascii_of_string rest).
  set (P := M ++ " "%char :: D ++ [","%char; " "%char; "2"%char; "0"%char; dchar a; dchar b]).
  unfold parse_date_from_text, splitlines.
  replace (list_ascii_of_string (month_name mo ++ " " ++ str_of_nat d ++ ", " ++ str_of_nat y ++ rest)%string)
    with (P ++ X).
  2:{ rewrite !list_ascii_app, (str_year y Hy). unfold P. cbn [app list_ascii_of_string].
      fold M D X a b. rewrite <- !app_assoc. cbn [app]. rewrite <- !app_assoc. reflexivity. }
  destruct (head_prefix P X) as (Y & -> & HY).
  { unfold P. destruct M; [congruence | discriminate]. }
  { unfold P. apply Forall_app. split; [exact HMb|]. constructor; [reflexivity|].
    apply Forall_app. split; [exact HDb|]. repeat constructor; assumption. }
  assert (HYw : nonword_start Y).
  { destruct HY as [->|(c & y' & -> & [Hc | ->])]; [exact I | | reflexivity].
    simpl. destruct Hrest as [-> | (c' & r & -> & _ & Hc')]; [discriminate|].
    unfold X in Hc. simpl in Hc. injection Hc as <-. exact Hc'. }
  rewrite (search_b_hit text_at None _ (M, d, y)).
  - cbv iota beta. rewrite HMmap. exact Hs.
  - rewrite text_at_K. unfold P. rewrite <- app_assoc. cbn [app].
    apply month_stage; [exact Hmo | intros; now apply K1_alpha|].
    rewrite <- app_assoc. cbn [app]. apply K1_day; [exact Hd|]. rewrite Hyab. now apply K2_year.
Qed.

Lemma text_date_at_witness :
  parse_date_from_text (month_name 3 ++ " " ++ str_of_nat 5 ++ ", " ++ str_of_nat 2024 ++ ". The council met.")%string
  = Some "2024-03-05".
Proof.
  apply (text_date_at 2024 3 5 "2024-03-05" ". The council met."); [lia | vm_compute; reflexivity |].
  right. exists "."%char, " The council met.".
  split; [reflexivity | split; [apply Nat.ltb_lt; reflexivity | reflexivity]].
Defined.
End Extras.
